(** * Black Sword Hack: initiative resolution (modules/combat.js)

    A shallow embedding of [BSHCombat._rollCombatantInitiatives] and of the
    [renderCombatTracker] hook, with the properties of the initiative
    bucketing scheme proved about it.

    Conventions of the embedding.
    - A JavaScript number is a [JsNumber]: a finite value (every finite
      double is a rational), NaN or one of the two infinities.  Only
      comparisons are ever performed on such values here, and the order on
      finite doubles is the order on the rationals they denote.
    - The total of a "1d20" roll and the initiative computed from it are
      integers, kept in [Z]; [bucket * 1000 - raw] is exact on them.
    - The host (dice engine, document store) is an explicit [World]: the
      results the dice engine is going to deliver, and the log of the
      batched updates submitted so far.  An [await] that rejects is an
      exception of the small state-and-exception monad [M].

    The modules [Shared] and [ChatMessages] embed the helpers of shared.js
    and the rolls of chat_messages.js that surround the tracker: the usage
    die path, the roll formulas, object paths, level, hit points and
    attribute values, and the cards of the d20 tests.  There a string is the
    UTF-8 encoding of the JavaScript string, and an access that would reach
    a built-in prototype is marked [Unmodelled] instead of being given a
    value.  Sums and differences of integers are computed where the
    arithmetic of doubles is exact, between -2^53 and 2^53, and are
    [Unmodelled] elsewhere. *)

From Stdlib Require Import ZArith QArith Lia.
From Stdlib Require Import Sorting.Sorted.
From Stdlib Require Import Ascii.
From stdpp Require Import base option list gmap strings pretty.

Local Open Scope Z_scope.

(** ** JavaScript values *)

Inductive JsNumber : Type :=
| Finite (q : Q)
| NaN
| PosInfinity
| NegInfinity.

Definition ofZ (z : Z) : JsNumber := Finite (inject_Z z).

(** [a < b] on numbers: false as soon as one side is NaN. *)
Definition lessThan (a b : JsNumber) : bool :=
  match a, b with
  | NaN, _ | _, NaN => false
  | Finite x, Finite y => negb (Qle_bool y x)
  | Finite _, PosInfinity => true
  | Finite _, NegInfinity => false
  | PosInfinity, _ => false
  | NegInfinity, NegInfinity => false
  | NegInfinity, _ => true
  end.

(** [a > b] is evaluated as [b < a]. *)
Definition greaterThan (a b : JsNumber) : bool := lessThan b a.

(** [a >= b]: false with a NaN operand, otherwise the negation of [a < b]. *)
Definition greaterEqual (a b : JsNumber) : bool :=
  match a, b with
  | NaN, _ | _, NaN => false
  | _, _ => negb (lessThan a b)
  end.

#[warnings="-register-all"]
Inductive JsValue : Type :=
| JsUndefined
| JsNull
| JsBool (b : bool)
| JsNum (n : JsNumber)
| JsStr (s : string)
| JsObj (props : gmap string JsValue).


(** ToBoolean: the operand of [!v] and of [if (v)]. *)
Definition truthy (v : JsValue) : bool :=
  match v with
  | JsUndefined | JsNull => false
  | JsBool b => b
  | JsNum (Finite q) => negb (Qeq_bool q 0)
  | JsNum NaN => false
  | JsNum _ => true
  | JsStr s => negb (String.eqb s "")
  | JsObj _ => true
  end.

(** [v === undefined || v === null], the test behind [?.] and [??]. *)
Definition nullish (v : JsValue) : bool :=
  match v with JsUndefined | JsNull => true | _ => false end.

(** [v.wisdom] for a [v] that is neither undefined nor null: the property
    of an object, and [undefined] on a primitive (no built-in prototype
    carries a [wisdom] property). *)
Definition dotWisdom (v : JsValue) : JsValue :=
  match v with
  | JsObj props => default JsUndefined (props !! "wisdom"%string)
  | _ => JsUndefined
  end.

(** [v?.wisdom] *)
Definition optWisdom (v : JsValue) : JsValue :=
  if nullish v then JsUndefined else dotWisdom v.

(** [v ?? d] *)
Definition coalesce (v d : JsValue) : JsValue :=
  if nullish v then d else v.

(** ** Documents of the host *)

(** [actor.system]: the cached derivation result and the raw stats the
    derivation reads. *)
Record System : Type := {
  calculated : JsValue;
  attributes : JsValue;
  backgrounds : JsValue;
  stories : JsValue
}.

Record Actor : Type := {
  a_type : string;
  a_system : System
}.

Inductive CritInit : Type := critSuccess | critFailure.

(** A combatant of the encounter.  [c_actor] is the [actor] getter, [None]
    when the actor cannot be found; [c_initiative] is [None] for [null];
    [c_critInit] is the stored [flags.bsh.critInit]. *)
Record Combatant : Type := {
  c_id : string;
  c_actor : option Actor;
  c_initiative : option JsNumber;
  c_critInit : option CritInit
}.

(** [this] of a [BSHCombat]: the [combatants] collection, a map from id to
    combatant. *)
Record Combat : Type := {
  combatants : gmap string Combatant
}.

(** Every combatant is filed under its own id. *)
Definition keyed (this : Combat) : Prop :=
  ∀ cid c, combatants this !! cid = Some c → c_id c = cid.

(** One element of the [updates] array. *)
Record Update : Type := {
  _id : string;
  initiative : Z;
  flags_bsh_critInit : option CritInit
}.

(** ** Classification of one combatant (steps 2 to 4 of the loop body) *)

Record Outcome : Type := {
  bucket : Z;
  critFlag : option CritInit;
  raw : Z;
  initiativeValue : Z
}.

(** Step 3: the under-WIS check of a player character whose roll totals
    [total]. *)
Definition characterOutcome (wisValue : JsNumber) (total : Z) : Outcome :=
  let raw := total in
  let '(bucket, critFlag) :=
    if raw =? 1 then (3, Some critSuccess)
    else if raw =? 20 then (1, Some critFailure)
    else if lessThan (ofZ raw) wisValue then (3, None)
    else (1, None) in
  {| bucket := bucket; critFlag := critFlag; raw := raw;
     initiativeValue := bucket * 1000 - raw |}.

(** Step 4: monsters and NPCs keep the defaults of step 2. *)
Definition monsterOutcome : Outcome :=
  let bucket := 2 in
  let raw := 0 in
  {| bucket := bucket; critFlag := None; raw := raw;
     initiativeValue := bucket * 1000 - raw |}.

(** Step 5: the queued update. *)
Definition queued (combatant : Combatant) (o : Outcome) : Update :=
  {| _id := c_id combatant;
     initiative := initiativeValue o;
     flags_bsh_critInit := critFlag o |}.

(** ** The host as a world, and the monad of the asynchronous code *)

Inductive Exn : Type :=
| DerivationThrew   (* calculateAttributeValues threw *)
| RollRejected      (* roll.evaluate() rejected *)
| UpdateRejected.   (* updateEmbeddedDocuments rejected *)

(** A call [updateEmbeddedDocuments(documentName, entries, { diff })]. *)
Record StoreCall : Type := {
  documentName : string;
  entries : list Update;
  diff : bool
}.

(** [pendingRolls]: the totals the dice engine delivers to the next
    evaluations of "1d20", in order; when none is left the engine rejects.
    [storeCalls]: the batched updates submitted so far, oldest first. *)
Record World : Type := {
  pendingRolls : list Z;
  storeCalls : list StoreCall
}.

Definition M (A : Type) : Type := World → (Exn + A) * World.

#[export] Instance M_ret : MRet M := λ A x w, (inr x, w).

#[export] Instance M_bind : MBind M := λ A B f m w,
  match m w with
  | (inl e, w') => (inl e, w')
  | (inr a, w') => f a w'
  end.

(** A computation that touches no host state: it returns or throws. *)
Definition lift {A : Type} (r : Exn + A) : M A := λ w, (r, w).

(** [const roll = new Roll("1d20"); await roll.evaluate(); roll.total] *)
Definition roll1d20 : M Z := λ w,
  match pendingRolls w with
  | [] => (inl RollRejected, w)
  | total :: rest =>
      (inr total, {| pendingRolls := rest; storeCalls := storeCalls w |})
  end.

(** * shared.js: dice helpers *)

Module Shared.

(** [v === s] for a string literal [s]: only a string equals it. *)
Definition strictEqualsString (v : JsValue) (s : string) : bool :=
  match v with
  | JsStr t => String.eqb t s
  | _ => false
  end.

(** The [case] labels that name a die. *)
Definition dieCases : list string := ["d4"; "d6"; "d8"; "d10"; "d12"; "d20"].

Definition isDieCase (s : string) : bool := existsb (String.eqb s) dieCases.

(** [downgradeDie(die)]: one step down the usage die path; [null] when no
    [case] matches. *)
Definition downgradeDie (die : JsValue) : JsValue :=
  let newDie := JsNull in
  if strictEqualsString die "d4" then JsStr "exhausted"
  else if strictEqualsString die "d6" then JsStr "d4"
  else if strictEqualsString die "d8" then JsStr "d6"
  else if strictEqualsString die "d10" then JsStr "d8"
  else if strictEqualsString die "d12" then JsStr "d10"
  else if strictEqualsString die "d20" then JsStr "d12"
  else newDie.

(** The [options] of [generateDieRollFormula]; a property that is not given
    is [undefined]. *)
Record DieRollOptions : Type := {
  dieType : JsValue;
  kind : JsValue
}.

(** [generateDieRollFormula()] is called on the default [{}]. *)
Definition noOptions : DieRollOptions :=
  {| dieType := JsUndefined; kind := JsUndefined |}.

(** A template literal substitution of [formula], which is [null] or a
    string at every use. *)
Definition substitute (formula : option string) : string :=
  match formula with
  | Some s => s
  | None => "null"
  end.

(** [formula !== '1'] *)
Definition isNotOne (formula : option string) : bool :=
  match formula with
  | Some s => negb (String.eqb s "1")
  | None => true
  end.

Definition generateDieRollFormula (options : DieRollOptions) : option string :=
  let formula : option string := None in
  let dieType :=
    if truthy (dieType options) then dieType options else JsStr "d20" in
  let kind := if truthy (kind options) then kind options else JsStr "standard" in
  let formula :=
    match dieType with
    | JsStr d =>
        if String.eqb d "one" then Some "1"%string
        else if isDieCase d then Some d
        else formula
    | _ => formula
    end in
  let formula :=
    if strictEqualsString kind "advantage" then
      if isNotOne formula
      then Some ("2" +:+ substitute formula +:+ "kl")
      else Some "2"%string
    else if strictEqualsString kind "disadvantage" then
      if isNotOne formula
      then Some ("2" +:+ substitute formula +:+ "kh")
      else formula
    else
      if isNotOne formula
      then Some ("1" +:+ substitute formula)
      else formula in
  formula.

(** [s.replace('d', '')]: the first occurrence of the character removed. *)
Fixpoint removeFirst (c : ascii) (s : string) : string :=
  match s with
  | EmptyString => EmptyString
  | String a rest =>
      if Ascii.eqb a c then rest else String a (removeFirst c rest)
  end.

(** What [generateDamageRollFormula] reads of [actor.system.damageDice], of
    [weapon.system] and of its options.  The damage dice are strings. *)
Record DamageDice : Type := {
  armed : string;
  unarmed : string
}.

Record WeaponSystem : Type := {
  w_type : JsValue;
  hands : JsNumber
}.

Record DamageOptions : Type := {
  critical : JsValue;
  doomed : JsValue
}.

Definition generateDamageRollFormula
    (damageDice : DamageDice) (weapon : WeaponSystem) (options : DamageOptions)
    : string :=
  let dieType :=
    if negb (strictEqualsString (w_type weapon) "unarmed")
    then armed damageDice
    else unarmed damageDice in
  let formula :=
    if truthy (doomed options)
    then "2" +:+ dieType +:+ "kl"
    else "1" +:+ dieType in
  let formula :=
    if greaterThan (hands weapon) (ofZ 1) then
      if truthy (doomed options)
      then "1" +:+ dieType
      else "2" +:+ dieType +:+ "kh"
    else formula in
  let formula :=
    if truthy (critical options)
    then formula +:+ "+" +:+ removeFirst "d"%char dieType
    else formula in
  formula.

(** ** Object paths *)

(** [s.split(sep)] for a separator of one character. *)
Fixpoint splitOn (sep : ascii) (s : string) : list string :=
  match s with
  | EmptyString => [EmptyString]
  | String a rest =>
      if Ascii.eqb a sep then EmptyString :: splitOn sep rest
      else match splitOn sep rest with
           | [] => [String a EmptyString]
           | first :: others => String a first :: others
           end
  end.

(** The embedding of property access covers the own properties of plain
    objects.  A property found on a built-in prototype (every object has
    those of [Object.prototype]) and a property of a primitive value are not
    values of [JsValue]: such an access is [Unmodelled]. *)
Inductive Modelled (A : Type) : Type :=
| Known (a : A)
| Unmodelled.
Arguments Known {A} a.
Arguments Unmodelled {A}.

(** The numbers the functions below compute with are doubles.  Every
    integer from -2^53 to 2^53 is a double, and a sum or a difference of two
    doubles is the exact result rounded to the nearest double: when the
    operands and the exact result are integers of that range, the result is
    exact.  Outside of that range a result can be rounded; the embedding
    does not compute the rounding, and answers [Unmodelled] there. *)
Definition exact (z : Z) : bool := (- 2 ^ 53 <=? z) && (z <=? 2 ^ 53).

(** [a + b] *)
Definition exactSum (a b : Z) : Modelled Z :=
  if exact a && exact b && exact (a + b) then Known (a + b) else Unmodelled.

(** [a - b] *)
Definition exactDifference (a b : Z) : Modelled Z :=
  if exact a && exact b && exact (a - b) then Known (a - b) else Unmodelled.

Definition objectPrototypeNames : list string :=
  ["constructor"; "__defineGetter__"; "__defineSetter__"; "hasOwnProperty";
   "__lookupGetter__"; "__lookupSetter__"; "isPrototypeOf";
   "propertyIsEnumerable"; "toString"; "valueOf"; "__proto__";
   "toLocaleString"].

Definition inherited (field : string) : bool :=
  existsb (String.eqb field) objectPrototypeNames.

(** [currentObject[field]] for a truthy [currentObject]. *)
Definition readField (currentObject : JsValue) (field : string)
    : Modelled JsValue :=
  match currentObject with
  | JsObj props =>
      match props !! field with
      | Some v => Known v
      | None => if inherited field then Unmodelled else Known JsUndefined
      end
  | _ => Unmodelled
  end.

(** The callback of [steps.forEach] in [getObjectField]. *)
Definition descend (currentObject : Modelled JsValue) (field : string)
    : Modelled JsValue :=
  match currentObject with
  | Unmodelled => Unmodelled
  | Known c =>
      if truthy c then
        match readField c field with
        | Unmodelled => Unmodelled
        | Known JsUndefined => Known JsNull
        | Known v => Known v
        end
      else Known c
  end.

Definition getObjectField (path : string) (object : JsValue)
    : Modelled JsValue :=
  let value := JsNull in
  if truthy object then
    let currentObject := object in
    let steps := splitOn "." path in
    fold_left descend steps (Known currentObject)
  else Known value.

(** The loop of [setObjectField] from step [i] on, as the new value of
    [currentObject]: the objects on the path are updated in place, and the
    data is a tree, so the update of the root is rebuilt on the way back.
    Only the setter of [__proto__] makes an assignment differ from the
    creation or update of an own property. *)
Fixpoint assignPath (steps : list string) (value : JsValue)
    (currentObject : JsValue) : Modelled JsValue :=
  match currentObject with
  | JsObj props =>
      match steps with
      | [] => Known currentObject
      | [field] =>
          if String.eqb field "__proto__" && negb (bool_decide (is_Some (props !! field)))
          then Unmodelled
          else Known (JsObj (<[field := value]> props))
      | field :: rest =>
          match readField currentObject field with
          | Unmodelled => Unmodelled
          | Known v =>
              let next := if negb (truthy v) then JsObj ∅ else v in
              match assignPath rest value next with
              | Unmodelled => Unmodelled
              | Known next' => Known (JsObj (<[field := next']> props))
              end
          end
      end
  | _ => Unmodelled
  end.

(** [setObjectField(path, value, object = null)], returning the root. *)
Definition setObjectField (path : string) (value : JsValue) (object : JsValue)
    : Modelled JsValue :=
  let rootObject := if truthy object then object else JsObj ∅ in
  let steps := splitOn "." path in
  assignPath steps value rootObject.

(** ** Level and hit points *)

(** Strings are kept as the bytes of their UTF-8 encoding.  [blank s] is
    [s.trim() === '']: every character of [s] is white space or a line
    terminator (U+0009 to U+000D, U+0020, U+00A0, U+1680, U+2000 to U+200A,
    U+2028, U+2029, U+202F, U+205F, U+3000, U+FEFF). *)
Definition byteIn (a : ascii) (lo hi : N) : bool :=
  (lo <=? N_of_ascii a)%N && (N_of_ascii a <=? hi)%N.

Fixpoint blank (s : string) : bool :=
  match s with
  | EmptyString => true
  | String a rest =>
      if byteIn a 9 13 || byteIn a 32 32 then blank rest
      else
        match rest with
        | String b rest2 =>
            if byteIn a 194 194 && byteIn b 160 160 then blank rest2
            else
              match rest2 with
              | String c rest3 =>
                  if (byteIn a 225 225 && byteIn b 154 154 && byteIn c 128 128)
                     || (byteIn a 226 226 && byteIn b 128 128
                         && (byteIn c 128 138 || byteIn c 168 169
                             || byteIn c 175 175))
                     || (byteIn a 226 226 && byteIn b 129 129 && byteIn c 159 159)
                     || (byteIn a 227 227 && byteIn b 128 128 && byteIn c 128 128)
                     || (byteIn a 239 239 && byteIn b 187 187 && byteIn c 191 191)
                  then blank rest3
                  else false
              | EmptyString => false
              end
        | EmptyString => false
        end
  end.

(** [stories[index].title && stories[index].title.trim() !== ''] for one
    story; [None] is a TypeError: the story is undefined or null, or its
    title is truthy and has no [trim] method. *)
Definition titled (story : JsValue) : option bool :=
  match story with
  | JsUndefined | JsNull => None
  | JsObj props =>
      let title := default JsUndefined (props !! "title"%string) in
      if truthy title then
        match title with
        | JsStr t => Some (negb (blank t))
        | _ => None
        end
      else Some false
  | _ => Some false
  end.

(** The callback of [forEach] in [calculateLevel], on the running
    [totalStories]; an exception ends the count. *)
Definition countStory (index : string) (story : JsValue)
    (totalStories : option Z) : option Z :=
  match totalStories, titled story with
  | Some n, Some true => Some (n + 1)
  | Some n, Some false => Some n
  | _, _ => None
  end.

(** [calculateLevel(data, configuration)]; [None] is a TypeError.  The keys
    of a primitive [data.stories] are at most string indices, whose values
    have no title. *)
Definition calculateLevel (data : System) : option Z :=
  let totalStories := Some 0 in
  match stories data with
  | JsUndefined | JsNull => None
  | JsObj stories =>
      match map_fold countStory totalStories stories with
      | Some totalStories => Some (totalStories + 1)
      | None => None
      end
  | _ => Some (0 + 1)
  end.

(** [calculateMaximumHitPoints(context, level)] for an integer
    [context.calculated.constitution] and an integer level:
    [total += level - 1] computes the difference, then the sum. *)
Definition calculateMaximumHitPoints (constitution level : Z) : Modelled Z :=
  let total := constitution in
  if level <? 10 then
    match exactDifference level 1 with
    | Known gained => exactSum total gained
    | Unmodelled => Unmodelled
    end
  else exactSum total 9.

(** ** Attribute values

    [calculateAttributeValues] on character data of the expected shape: the
    base attributes are integers or missing, the background names are
    strings, the bonuses of the configured backgrounds are integers, and the
    improvement choices are strings or missing.  A sum is computed where
    it is exact, see [exactSum]. *)

(** The value of a property of [calculated]. *)
Inductive Stat : Type :=
| Int (z : Z)
| NotANumber
| Undefined.

Record BaseAttributes : Type := {
  constitution : option Z;
  charisma : option Z;
  dexterity : option Z;
  intelligence : option Z;
  wisdom : option Z;
  strength : option Z
}.

Record BackgroundNames : Type := {
  b_first : string;
  b_second : string;
  b_third : string
}.

(** [story.improvements.attributes], when both it and [improvements] are
    truthy: [i_first] is [None] when [first] is undefined or null (reading
    its [choice] throws), [i_second] is [None] when [second] is falsy; a
    choice is [None] when it is undefined. *)
Record ImprovedAttributes : Type := {
  granted : bool;
  i_first : option (option string);
  i_second : option (option string)
}.

Record Story : Type := {
  improved : option ImprovedAttributes
}.

Record CharacterData : Type := {
  d_attributes : BaseAttributes;
  d_backgrounds : BackgroundNames;
  d_stories : gmap string Story
}.

(** An entry of [configuration.backgroundList]: its [attributes], when
    truthy, map attribute names to bonuses. *)
Record Background : Type := {
  bonuses : option (gmap string Z)
}.

Record Configuration : Type := {
  backgroundList : gmap string Background
}.

Definition stat (base : option Z) : Stat :=
  match base with
  | Some z => Int z
  | None => Undefined
  end.

(** [x + n] for the value [x] of a property and a number [n]: the sum of
    two integers, and NaN when [x] is undefined or NaN. *)
Definition plus (x : Stat) (n : Z) : Modelled Stat :=
  match x with
  | Int z =>
      match exactSum z n with
      | Known total => Known (Int total)
      | Unmodelled => Unmodelled
      end
  | _ => Known NotANumber
  end.

(** [calculated[attribute] += n].  A name that is not a property of
    [calculated] reads as [undefined], unless [Object.prototype] defines
    it. *)
Definition addTo (attribute : string) (n : Z)
    (calculated : Modelled (gmap string Stat)) : Modelled (gmap string Stat) :=
  match calculated with
  | Unmodelled => Unmodelled
  | Known c =>
      match c !! attribute with
      | Some x =>
          match plus x n with
          | Known total => Known (<[attribute := total]> c)
          | Unmodelled => Unmodelled
          end
      | None =>
          if inherited attribute then Unmodelled
          else Known (<[attribute := NotANumber]> c)
      end
  end.

(** [if (attribute in calculated) calculated[attribute] += 1] for a choice;
    an undefined choice is the property name "undefined". *)
Definition improve (choice : option string)
    (calculated : Modelled (gmap string Stat)) : Modelled (gmap string Stat) :=
  let attribute := default "undefined"%string choice in
  match calculated with
  | Unmodelled => Unmodelled
  | Known c =>
      match c !! attribute with
      | Some x =>
          match plus x 1 with
          | Known total => Known (<[attribute := total]> c)
          | Unmodelled => Unmodelled
          end
      | None => if inherited attribute then Unmodelled else Known c
      end
  end.

(** [s.includes(c)] for a character [c]. *)
Fixpoint includes (c : ascii) (s : string) : bool :=
  match s with
  | EmptyString => false
  | String a rest => Ascii.eqb a c || includes c rest
  end.

(** The callback of [map] on the background names: what follows the last
    '#' of a name that has one. *)
Definition backgroundName (name : string) : string :=
  if includes "#" name
  then let parts := splitOn "#" name in List.last parts EmptyString
  else name.

(** The callback of [backgrounds.forEach]. *)
Definition applyBackground (e : option Background)
    (calculated : Modelled (gmap string Stat)) : Modelled (gmap string Stat) :=
  match e with
  | Some {| bonuses := Some attributes |} => map_fold addTo calculated attributes
  | _ => calculated
  end.

(** The callback of [Object.keys(data.stories).forEach], on the state of
    [calculated]; [None] is the TypeError of a granted improvement without
    [first]. *)
Definition applyStory (key : string) (story : Story)
    (calculated : option (Modelled (gmap string Stat)))
    : option (Modelled (gmap string Stat)) :=
  match calculated with
  | None => None
  | Some c =>
      match improved story with
      | Some i =>
          if granted i then
            match i_first i with
            | None => None
            | Some choice =>
                let c := improve choice c in
                match i_second i with
                | Some choice => Some (improve choice c)
                | None => Some c
                end
            end
          else Some c
      | None => Some c
      end
  end.

(** The callback of [Object.keys(calculated).forEach]. *)
Definition cap (x : Stat) : Stat :=
  match x with
  | Int z => if 18 <? z then Int 18 else Int z
  | _ => x
  end.

Definition calculateAttributeValues (data : CharacterData)
    (configuration : Configuration)
    : option (Modelled (gmap string Stat)) :=
  let a := d_attributes data in
  let calculated : gmap string Stat :=
    {[ "constitution"%string := stat (constitution a);
       "charisma"%string := stat (charisma a);
       "dexterity"%string := stat (dexterity a);
       "intelligence"%string := stat (intelligence a);
       "wisdom"%string := stat (wisdom a);
       "strength"%string := stat (strength a) ]} in
  let backgroundNames :=
    backgroundName <$> [b_first (d_backgrounds data);
                        b_second (d_backgrounds data);
                        b_third (d_backgrounds data)] in
  let backgrounds :=
    (λ name, backgroundList configuration !! name) <$> backgroundNames in
  let calculated :=
    fold_left (λ c e, applyBackground e c) backgrounds (Known calculated) in
  match map_fold applyStory (Some calculated) (d_stories data) with
  | None => None
  | Some Unmodelled => Some Unmodelled
  | Some (Known calculated) => Some (Known (cap <$> calculated))
  end.

(** ** Owned items *)

(** An item of an actor, with what the quantity functions read of its
    [system]; the quantity is an integer. *)
Record Item : Type := {
  i_id : string;
  quantity : Z
}.

(** An actor of [game.actors] with its [items]. *)
Record Owner : Type := {
  items : list Item
}.

(** The callback of [game.actors.find] in [getOwnedItemById] run over the
    actors, on the variable [item] it assigns: the search stops at the first
    actor for which an item was found. *)
Fixpoint searchActors (itemId : string) (actors : list Owner)
    (item : option Item) : option Item :=
  match actors with
  | [] => item
  | actor :: rest =>
      let item := find (λ i, String.eqb (i_id i) itemId) (items actor) in
      match item with
      | Some _ => item
      | None => searchActors itemId rest item
      end
  end.

(** [getOwnedItemById(itemId)]; [None] is [undefined]. *)
Definition getOwnedItemById (actors : list Owner) (itemId : string)
    : option Item :=
  let item := None in
  searchActors itemId actors item.

(** What a quantity function does: the [data] of the update it requests of
    the item, or one of its two errors. *)
Inductive QuantityOutcome : Type :=
| Requested (item : Item) (data : JsValue)
| Unavailable
| NotFound.

Definition decrementItemQuantity (actors : list Owner) (itemId : string)
    : Modelled QuantityOutcome :=
  match getOwnedItemById actors itemId with
  | Some item =>
      if 0 <? quantity item then
        match exactDifference (quantity item) 1 with
        | Known less =>
            match setObjectField "system.quantity" (JsNum (ofZ less))
                    JsNull with
            | Known data => Known (Requested item data)
            | Unmodelled => Unmodelled
            end
        | Unmodelled => Unmodelled
        end
      else Known Unavailable
  | None => Known NotFound
  end.

Definition incrementItemQuantity (actors : list Owner) (itemId : string)
    : Modelled QuantityOutcome :=
  match getOwnedItemById actors itemId with
  | Some item =>
      match exactSum (quantity item) 1 with
      | Known more =>
          match setObjectField "system.quantity" (JsNum (ofZ more))
                  JsNull with
          | Known data => Known (Requested item data)
          | Unmodelled => Unmodelled
          end
      | Unmodelled => Unmodelled
      end
  | None => Known NotFound
  end.

End Shared.

(** * chat_messages.js: the rolls behind the chat cards

    Each function is embedded from the point where its actor is at hand to
    the data it hands to [showMessage].  The dice engine is the function
    [rollEm] from the formula of [new Roll(formula)] to the evaluated roll;
    labels are kept as their localization keys. *)

Module ChatMessages.

(** An evaluated roll: [roll.total], [roll.formula] and
    [roll.terms[0].results[0]]. *)
Record Rolled : Type := {
  total : Z;
  r_formula : string;
  firstResult : JsValue
}.

(** What a card shows of a roll, with the formula that was rolled. *)
Record Card : Type := {
  rolled : string;
  shown : string;
  result : Z;
  success : option bool;
  label : option string;
  additional : option string
}.

(** [v === n] for a number literal [n]. *)
Definition strictEqualsNumber (v : JsValue) (n : Z) : bool :=
  match v with
  | JsNum (Finite q) => Qeq_bool q (inject_Z n)
  | _ => false
  end.

(** [actor.system.doom === "exhausted"] *)
Definition isDoomed (doom : JsValue) : bool :=
  Shared.strictEqualsString doom "exhausted".

(** The labels of the rolls against an attribute whose criticals are read
    from the total. *)
Definition labelled (criticalSuccess criticalFailure succeeded : bool)
    (blurb : string) : string * option string :=
  if negb criticalSuccess && negb criticalFailure then
    (if succeeded then "bsh.messages.labels.success"%string
     else "bsh.messages.labels.failure"%string, None)
  else if criticalSuccess then
    ("bsh.messages.labels.criticalSuccess"%string, None)
  else
    ("bsh.messages.labels.criticalFailure"%string, Some blurb).

(** The [then] callback shared, line for line, by [logDodgeRoll],
    [logInitiativeRoll], [logParryRoll] and [logPerceptionRoll]; [tested] is
    the attribute each of them reads. *)
Definition totalAgainst (formula : string) (tested : JsNumber) (blurb : string)
    (roll : Rolled) : Card :=
  let criticalFailure := total roll =? 20 in
  let criticalSuccess := total roll =? 1 in
  let succeeded := criticalSuccess || lessThan (ofZ (total roll)) tested in
  let '(label, additional) :=
    labelled criticalSuccess criticalFailure succeeded blurb in
  {| rolled := formula; shown := formula; result := total roll;
     success := Some succeeded; label := Some label;
     additional := additional |}.

Definition logInitiativeRoll (doom : JsValue) (shiftKey ctrlKey : bool)
    (wisdom : JsNumber) (rollEm : string → Rolled) : Card :=
  let doomed := isDoomed doom in
  let formula :=
    if negb doomed then
      if shiftKey then "2d20kl"%string
      else if ctrlKey then "2d20kh"%string
      else "1d20"%string
    else (if shiftKey then "1d20"%string else "2d20kh"%string) in
  totalAgainst formula wisdom "bsh.blurbs.critical_failure" (rollEm formula).

Definition logPerceptionRoll (doom : JsValue) (shiftKey ctrlKey : bool)
    (intelligence : JsNumber) (rollEm : string → Rolled) : Card :=
  let doomed := isDoomed doom in
  let formula :=
    if negb doomed then
      if shiftKey then "2d20kl"%string
      else if ctrlKey then "2d20kh"%string
      else "1d20"%string
    else (if shiftKey then "1d20"%string else "2d20kh"%string) in
  totalAgainst formula intelligence "bsh.blurbs.critical_failure"
    (rollEm formula).

Definition logDodgeRoll (doom armourShield : JsValue) (shiftKey ctrlKey : bool)
    (dexterity : JsNumber) (rollEm : string → Rolled) : Card :=
  let doomed := isDoomed doom in
  let shield := Shared.strictEqualsString armourShield "yes" in
  let formula :=
    if negb doomed then
      if shiftKey then "2d20kl"%string
      else if ctrlKey then "2d20kh"%string
      else "1d20"%string
    else (if shiftKey || shield then "1d20"%string else "2d20kh"%string) in
  totalAgainst formula dexterity "bsh.blurbs.defend_fumble" (rollEm formula).

Definition logParryRoll (doom armourShield : JsValue) (shiftKey ctrlKey : bool)
    (strength : JsNumber) (rollEm : string → Rolled) : Card :=
  let doomed := isDoomed doom in
  let shield := Shared.strictEqualsString armourShield "yes" in
  let formula :=
    if negb doomed then
      if ctrlKey && negb shield then "2d20kh"%string
      else if (shiftKey || shield) && negb ctrlKey then "2d20kl"%string
      else "1d20"%string
    else (if shiftKey || shield then "1d20"%string else "2d20kh"%string) in
  totalAgainst formula strength "bsh.blurbs.defend_fumble" (rollEm formula).

(** [logAttributeTest]: the criticals are read from the first result of
    the first term, and an integer adjustment is written behind the dice. *)
Definition logAttributeTest (doom : JsValue) (tested : JsNumber)
    (shiftKey ctrlKey : bool) (adjustment : Z) (rollEm : string → Rolled)
    : Card :=
  let doomed := isDoomed doom in
  let formula := if doomed then "2d20kh"%string else "1d20"%string in
  let formula :=
    if shiftKey then (if doomed then "1d20"%string else "2d20kl"%string)
    else if ctrlKey then (if negb doomed then "2d20kh"%string else formula)
    else formula in
  let formula :=
    if adjustment <? 0 then formula +:+ pretty adjustment
    else if 0 <? adjustment then formula +:+ "+" +:+ pretty adjustment
    else formula in
  let roll := rollEm formula in
  let criticalFailure := strictEqualsNumber (firstResult roll) 20 in
  let criticalSuccess := strictEqualsNumber (firstResult roll) 1 in
  let succeeded := criticalSuccess || lessThan (ofZ (total roll)) tested in
  let '(label, additional) :=
    if succeeded then
      (if criticalSuccess then "bsh.fields.titles.criticalSuccess"%string
       else "bsh.fields.titles.success"%string, None)
    else if criticalFailure then
      ("bsh.fields.titles.criticalFailure"%string,
       Some "bsh.blurbs.critical_failure"%string)
    else ("bsh.fields.titles.failure"%string, None) in
  {| rolled := formula; shown := formula; result := total roll;
     success := Some succeeded; label := Some label;
     additional := additional |}.

(** [logDieRoll]: the card is filled in before the keys are looked at. *)
Definition logDieRoll (doom : JsValue) (dieType : string)
    (shiftKey ctrlKey : bool) (rollEm : string → Rolled) : Card :=
  let doomed := isDoomed doom in
  let formula :=
    if doomed then "2" +:+ dieType +:+ "kl" else "1" +:+ dieType in
  let messageFormula := formula in
  let formula :=
    if shiftKey then
      (if doomed then "1" +:+ dieType else "2" +:+ dieType +:+ "kh")
    else if ctrlKey then
      (if negb doomed then "2" +:+ dieType +:+ "kl" else formula)
    else formula in
  let roll := rollEm formula in
  {| rolled := formula; shown := messageFormula; result := total roll;
     success := None; label := None; additional := None |}.

(** A level: an integer of at most 2^52 in absolute value.  Such integers
    are doubles, and the difference of two of them, at most 2^53 in
    absolute value, is computed exactly and written in decimal digits by
    a template literal. *)
Record Level : Type := {
  levelValue : Z;
  levelBound : (Z.abs levelValue <=? 2 ^ 52) = true
}.

(** The first target of the user, for [logAttackRoll]: the type and the
    level of its actor, when it has one.  A level that is missing counts
    as 0, like a level of 0. *)
Record Target : Type := {
  targetType : string;
  targetLevel : option Level
}.

(** [level || 0] *)
Definition levelOrZero (level : option Level) : Z :=
  match level with
  | Some level => levelValue level
  | None => 0
  end.

(** The threat bonus of [logAttackRoll]. *)
Definition threatBonus (actorType : string) (pcLevel : option Level)
    (targets : list (option Target)) : Z :=
  let threatBonus := 0 in
  if String.eqb actorType "character" then
    match head targets with
    | Some (Some targetActor) =>
        if negb (String.eqb (targetType targetActor) "character") then
          let pcLevel := levelOrZero pcLevel in
          let npcLevel := levelOrZero (targetLevel targetActor) in
          if pcLevel <? npcLevel then npcLevel - pcLevel else threatBonus
        else threatBonus
    | _ => threatBonus
    end
  else threatBonus.

(** The card of an attack, with the damage formula of a hit.  The dice of
    the attack are written through [substitute]; they are a string in every
    branch. *)
Record AttackCard : Type := {
  attack : Card;
  damage : option string
}.

Definition logAttackRoll (actorType : string) (pcLevel : option Level)
    (targets : list (option Target)) (doom : JsValue)
    (strength dexterity : JsNumber)
    (damageDice : Shared.DamageDice) (weapon : Shared.WeaponSystem)
    (shiftKey ctrlKey : bool) (rollEm : string → Rolled) : AttackCard :=
  let threatBonus := threatBonus actorType pcLevel targets in
  let tested :=
    if negb (Shared.strictEqualsString (Shared.w_type weapon) "ranged")
    then strength else dexterity in
  let doomed := isDoomed doom in
  let formulaDice :=
    if shiftKey then
      (if negb doomed then Some "2d20kl"%string
       else Shared.generateDieRollFormula Shared.noOptions)
    else if ctrlKey then
      Shared.generateDieRollFormula
        {| Shared.dieType := JsUndefined;
           Shared.kind := JsStr "disadvantage" |}
    else
      (if negb doomed then Shared.generateDieRollFormula Shared.noOptions
       else Shared.generateDieRollFormula
              {| Shared.dieType := JsUndefined;
                 Shared.kind := JsStr "disadvantage" |}) in
  let formula :=
    if 0 <? threatBonus
    then Shared.substitute formulaDice +:+ " + " +:+ pretty threatBonus
    else Shared.substitute formulaDice in
  let roll := rollEm formula in
  let firstDieResult := firstResult roll in
  let criticalFailure := strictEqualsNumber firstDieResult 20 in
  let criticalSuccess := strictEqualsNumber firstDieResult 1 in
  let succeeded :=
    negb criticalFailure && greaterThan tested (ofZ (total roll)) in
  let '(label, additional) :=
    if negb criticalSuccess && negb criticalFailure then
      (if succeeded then "bsh.messages.labels.hit"%string
       else "bsh.messages.labels.miss"%string, None)
    else if criticalSuccess then
      ("bsh.messages.labels.criticalHit"%string, None)
    else
      ("bsh.messages.labels.criticalMiss"%string,
       Some "bsh.blurbs.critical_failure"%string) in
  {| attack := {| rolled := formula; shown := r_formula roll;
                  result := total roll; success := Some succeeded;
                  label := Some label; additional := additional |};
     damage :=
       if succeeded then
         Some (Shared.generateDamageRollFormula damageDice weapon
                 {| Shared.critical := JsBool criticalSuccess;
                    Shared.doomed := JsBool doomed |})
       else None |}.

(** What [logItemUsageDieRoll] does: an error of one of two kinds, or a
    roll with its card, the [data] of the update [{ system: data }] it
    requests, if any, and whether it calls [decrementItemQuantity]. *)
Inductive UsageOutcome : Type :=
| UsageNotFound
| UsageExhausted
| UsageRolled (card : Card) (update : option JsValue) (decrement : bool).

(** [logItemUsageDieRoll(item, field, shiftKey, ctrlKey)] on [item.system].
    A usage die that is truthy without being a string is not modelled: its
    text in the formula is not a value of the embedding. *)
Definition logItemUsageDieRoll (system : JsValue) (field : string)
    (shiftKey ctrlKey : bool) (rollEm : string → Rolled)
    : Shared.Modelled UsageOutcome :=
  match Shared.getObjectField (field +:+ ".current") system with
  | Shared.Unmodelled => Shared.Unmodelled
  | Shared.Known usageDie =>
    let usageDie :=
      if negb (truthy usageDie) || Shared.strictEqualsString usageDie "^"
      then Shared.getObjectField (field +:+ ".maximum") system
      else Shared.Known usageDie in
    match usageDie with
    | Shared.Unmodelled => Shared.Unmodelled
    | Shared.Known usageDie =>
      if truthy usageDie then
        if negb (Shared.strictEqualsString usageDie "exhausted") then
          match usageDie with
          | JsStr die =>
            let formula := "1" +:+ die in
            let formula :=
              if shiftKey then "2" +:+ die +:+ "kh"
              else if ctrlKey then "2" +:+ die +:+ "kl"
              else formula in
            let roll := rollEm formula in
            if total roll <? 3 then
              let newDie := Shared.downgradeDie usageDie in
              match Shared.setObjectField (field +:+ ".current") newDie JsNull with
              | Shared.Unmodelled => Shared.Unmodelled
              | Shared.Known data =>
                  Shared.Known
                    (UsageRolled
                       {| rolled := formula; shown := formula;
                          result := total roll; success := Some false;
                          label := Some "bsh.fields.titles.failure"%string;
                          additional := None |}
                       (Some data)
                       (Shared.strictEqualsString newDie "exhausted"))
              end
            else
              Shared.Known
                (UsageRolled
                   {| rolled := formula; shown := formula;
                      result := total roll; success := Some true;
                      label := Some "bsh.fields.titles.success"%string;
                      additional := None |}
                   None false)
          | _ => Shared.Unmodelled
          end
        else Shared.Known UsageExhausted
      else Shared.Known UsageNotFound
    end
  end.

End ChatMessages.

(** ** Notions used in the statements on shared.js *)

(** The text of a roll of kind [k] on the die text [d]. *)
Definition dieRollText (k : JsValue) (d : string) : string :=
  if Shared.strictEqualsString k "advantage" then "2" +:+ d +:+ "kl"
  else if Shared.strictEqualsString k "disadvantage" then "2" +:+ d +:+ "kh"
  else "1" +:+ d.

(** What a read at a path answers for a value stored there. *)
Definition readBack (value : JsValue) : JsValue :=
  match value with
  | JsUndefined => JsNull
  | v => v
  end.

(** A system whose stories are replaced. *)
Definition withStories (data : System) (s : gmap string JsValue) : System :=
  {| calculated := calculated data; attributes := attributes data;
     backgrounds := backgrounds data; stories := JsObj s |}.

(** The dice at the head of a formula. *)
Definition hasDice (formula dice : string) : Prop :=
  ∃ suffix, formula = dice +:+ suffix.

(** The six attributes of a character. *)
Definition attributeNames : list string :=
  ["constitution"; "charisma"; "dexterity"; "intelligence"; "wisdom";
   "strength"].

(** A computed attribute as the value of a property. *)
Definition statValue (x : Shared.Stat) : JsValue :=
  match x with
  | Shared.Int z => JsNum (ofZ z)
  | Shared.NotANumber => JsNum NaN
  | Shared.Undefined => JsUndefined
  end.

(** [k] is a property of the object, as far as the object is known. *)
Definition hasProperty (k : string)
    (calculated : Shared.Modelled (gmap string Shared.Stat)) : Prop :=
  match calculated with
  | Shared.Known c => is_Some (c !! k)
  | Shared.Unmodelled => True
  end.

(** A sample character sheet: a sage who was a soldier, with one story
    that improved wisdom, under a configuration of two backgrounds. *)
Definition sampleConfiguration : Shared.Configuration :=
  {| Shared.backgroundList :=
       {[ "sage"%string :=
            {| Shared.bonuses := Some {[ "wisdom"%string := 2 ]} |};
          "soldier"%string :=
            {| Shared.bonuses := Some {[ "strength"%string := 1 ]} |} ]} |}.

Definition sampleData : Shared.CharacterData :=
  {| Shared.d_attributes :=
       {| Shared.constitution := Some 11; Shared.charisma := Some 9;
          Shared.dexterity := Some 12; Shared.intelligence := Some 13;
          Shared.wisdom := Some 16; Shared.strength := Some 10 |};
     Shared.d_backgrounds :=
       {| Shared.b_first := "origin#sage"; Shared.b_second := "soldier";
          Shared.b_third := "" |};
     Shared.d_stories :=
       {[ "1"%string :=
            {| Shared.improved :=
                 Some {| Shared.granted := true;
                         Shared.i_first := Some (Some "wisdom"%string);
                         Shared.i_second := None |} |} ]} |}.

(** The computed attributes of the sample sheet. *)
Definition sampleCalculated : gmap string Shared.Stat :=
  {[ "constitution"%string := Shared.Int 11; "charisma"%string := Shared.Int 9;
     "dexterity"%string := Shared.Int 12; "intelligence"%string := Shared.Int 13;
     "wisdom"%string := Shared.Int 18; "strength"%string := Shared.Int 11 ]}.

(** A character whose system data holds no cached attributes. *)
Definition uncachedCharacter : Actor :=
  {| a_type := "character";
     a_system := {| calculated := JsUndefined; attributes := JsUndefined;
                    backgrounds := JsUndefined; stories := JsUndefined |} |}.

Definition uncachedHero : Combatant :=
  {| c_id := "hero"; c_actor := Some uncachedCharacter;
     c_initiative := None; c_critInit := None |}.

Definition uncachedCombat : Combat :=
  {| combatants := {[ "hero"%string := uncachedHero ]} |}.

(** A derivation that answers the computed attributes [c]. *)
Definition derivedAs (c : gmap string Shared.Stat)
    : System → option (gmap string JsValue) :=
  λ _, Some (statValue <$> c).






(** The choices a story applies, in order; [None] when it throws. *)
Definition storyChoices (story : Shared.Story) : option (list (option string)) :=
  match Shared.improved story with
  | Some i =>
      if Shared.granted i then
        match Shared.i_first i with
        | None => None
        | Some choice =>
            match Shared.i_second i with
            | Some choice' => Some [choice; choice']
            | None => Some [choice]
            end
        end
      else Some []
  | None => Some []
  end.

(** An attribute of the result raised by one improvement. *)
Definition raised (x : Shared.Stat) : Shared.Stat :=
  match x with
  | Shared.Int z => Shared.Int (Z.min 18 (z + 1))
  | _ => Shared.NotANumber
  end.

(** Character data with other stories. *)
Definition withDataStories (data : Shared.CharacterData)
    (s : gmap string Shared.Story) : Shared.CharacterData :=
  {| Shared.d_attributes := Shared.d_attributes data;
     Shared.d_backgrounds := Shared.d_backgrounds data;
     Shared.d_stories := s |}.

(** The system data of a torch whose usage die stands at d4 of d6, and a
    dice engine that always totals 2. *)
Definition torchSystem : JsValue :=
  JsObj {[ "usageDie"%string :=
             JsObj {[ "current"%string := JsStr "d4";
                      "maximum"%string := JsStr "d6" ]} ]}.

(** A torch whose current die defers to an exhausted maximum. *)
Definition spentSystem : JsValue :=
  JsObj {[ "usageDie"%string :=
             JsObj {[ "current"%string := JsStr "^";
                      "maximum"%string := JsStr "exhausted" ]} ]}.

Definition alwaysTwo : string → ChatMessages.Rolled :=
  λ formula, {| ChatMessages.total := 2; ChatMessages.r_formula := formula;
                ChatMessages.firstResult := JsUndefined |}.

(** A dice engine that always totals 7. *)
Definition alwaysSeven : string → ChatMessages.Rolled :=
  λ formula, {| ChatMessages.total := 7; ChatMessages.r_formula := formula;
                ChatMessages.firstResult := JsNum (ofZ 7) |}.

(** An actor who owns three torches. *)
Definition sampleTorch : Shared.Item :=
  {| Shared.i_id := "torch"; Shared.quantity := 3 |}.

Definition sampleOwner : Shared.Owner := {| Shared.items := [sampleTorch] |}.

(** A character of level 2 and a creature of level 5. *)
Definition secondLevel : ChatMessages.Level :=
  {| ChatMessages.levelValue := 2; ChatMessages.levelBound := eq_refl |}.

Definition fifthLevel : ChatMessages.Level :=
  {| ChatMessages.levelValue := 5; ChatMessages.levelBound := eq_refl |}.

Definition sampleCreature : ChatMessages.Target :=
  {| ChatMessages.targetType := "creature";
     ChatMessages.targetLevel := Some fifthLevel |}.

Ltac string_cases s :=
  repeat match goal with
         | |- context [String.eqb s ?t] =>
             destruct (String.eqb_spec s t) as [->|?]
         | H : context [String.eqb s ?t] |- _ =>
             destruct (String.eqb_spec s t) as [->|?]
         end.

Section BSHCombat.

(** [calculateAttributeValues(sys, BSHConfiguration)] of shared.js, closed
    over the configuration table: it returns a fresh object of attribute
    values, or throws ([None]) on a malformed [sys]. *)
Variable calculateAttributeValues : System → option (gmap string JsValue).

(** Whether the document store accepts a batched update. *)
Variable storeAccepts : StoreCall → bool.

(** [await this.updateEmbeddedDocuments(documentName, updates, { diff })] *)
Definition updateEmbeddedDocuments
    (name : string) (updates : list Update) (d : bool) : M unit := λ w,
  let call := {| documentName := name; entries := updates; diff := d |} in
  let w' := {| pendingRolls := pendingRolls w;
               storeCalls := storeCalls w ++ [call] |} in
  if storeAccepts call then (inr tt, w') else (inl UpdateRejected, w').

(** Step 1, character branch: the cached [sys.calculated] unless falsy,
    else the derivation; then the [typeof] guard with default 10.  No host
    state is involved: the result is a number or an exception. *)
Definition characterWisdom (sys : System) : Exn + JsNumber :=
  let attributes :=
    if negb (truthy (calculated sys))
    then match calculateAttributeValues sys with
         | Some obj => inr (JsObj obj)
         | None => inl DerivationThrew
         end
    else inr (calculated sys) in
  match attributes with
  | inl e => inl e
  | inr attributes =>
      inr (match dotWisdom attributes with
           | JsNum n => n
           | _ => ofZ 10
           end)
  end.

(** Step 1, other branch: [sys.attributes?.wisdom ?? 10]. *)
Definition monsterWisdom (sys : System) : JsValue :=
  coalesce (optWisdom (attributes sys)) (JsNum (ofZ 10)).

(** The body of [for (const cid of ids)].  The two tests of
    [actor.type === "character"] (steps 1 and 3) are one match here:
    nothing in between changes the actor. *)
Definition iteration (this : Combat) (cid : string) (updates : list Update)
    : M (list Update) :=
  match combatants this !! cid with
  | None => mret updates
  | Some combatant =>
    match c_actor combatant with
    | None => mret updates
    | Some actor =>
      let sys := a_system actor in
      if String.eqb (a_type actor) "character" then
        wisValue ← lift (characterWisdom sys);
        total ← roll1d20;
        mret (updates ++ [queued combatant (characterOutcome wisValue total)])
      else
        let wisValue := monsterWisdom sys in
        mret (updates ++ [queued combatant monsterOutcome])
    end
  end.

Fixpoint forOf (this : Combat) (ids : list string) (updates : list Update)
    : M (list Update) :=
  match ids with
  | [] => mret updates
  | cid :: rest =>
      updates' ← iteration this cid updates;
      forOf this rest updates'
  end.

Definition _rollCombatantInitiatives (this : Combat) (ids : list string)
    : M unit :=
  updates ← forOf this ids [];
  if negb (Nat.eqb (length updates) 0)
  then updateEmbeddedDocuments "Combatant" updates true
  else mret tt.

(** [rollInitiative(ids, { prompt })]: the prompt option is ignored. *)
Definition rollInitiative (this : Combat) (ids : list string) (prompt : bool)
    : M unit :=
  _rollCombatantInitiatives this ids.


(** ** The [renderCombatTracker] hook *)

(** [trackerApp.combat] may be null, and the hook also tests its
    [combatants]. *)
Record TrackedCombat : Type := {
  t_combatants : option (gmap string Combatant)
}.

Record TrackerApp : Type := {
  t_combat : option TrackedCombat
}.

(** One [<li class="combatant">]: its [dataset.combatantId] and the text of
    its [span.combatant-initiative], [None] when it has no such span. *)
Record Row : Type := {
  dataset_combatantId : option string;
  initSpan : option string
}.

(** [actor?.type === "character"] *)
Definition isCharacter (actor : option Actor) : bool :=
  match actor with
  | Some a => String.eqb (a_type a) "character"
  | None => false
  end.

(** The text written into the span of a row whose combatant was found. *)
Definition initiativeLabel (combatant : Combatant) : string :=
  let actor := c_actor combatant in
  if isCharacter actor then
    let initValue := default (ofZ 0) (c_initiative combatant) in
    if greaterThan initValue (ofZ 2000) then "Success" else "Failure"
  else "".

(** The callback of [.each]: every early [return] leaves the row as it is. *)
Definition eachRow (cs : gmap string Combatant) (li : Row) : Row :=
  let row := li in
  match dataset_combatantId row with
  | None => row
  | Some combatantId =>
    if String.eqb combatantId "" then row
    else match cs !! combatantId with
         | None => row
         | Some combatant =>
           match initSpan row with
           | None => row
           | Some _ =>
               {| dataset_combatantId := dataset_combatantId row;
                  initSpan := Some (initiativeLabel combatant) |}
           end
         end
  end.

Definition renderCombatTracker (trackerApp : TrackerApp) (html : list Row)
    : list Row :=
  match t_combat trackerApp with
  | None => html
  | Some combat =>
    match t_combatants combat with
    | None => html
    | Some cs => eachRow cs <$> html
    end
  end.

(** ** Notions used in the statements *)

(** The combatant and actor an id resolves to, when both exist. *)
Definition resolves (this : Combat) (cid : string)
    : option (Combatant * Actor) :=
  match combatants this !! cid with
  | Some c => match c_actor c with
              | Some a => Some (c, a)
              | None => None
              end
  | None => None
  end.

(** What processing one combatant can produce: the fixed monster outcome, or
    the outcome of a character on a d20 total. *)
Inductive possible : Outcome → Prop :=
| possible_monster : possible monsterOutcome
| possible_character wis total :
    1 ≤ total ≤ 20 → possible (characterOutcome wis total).

Definition rankDescending (a b : Outcome) : Prop :=
  initiativeValue a >= initiativeValue b.

Definition bucketDescending (a b : Outcome) : Prop :=
  bucket a >= bucket b.

(** Whether processing the id evaluates a roll: a resolvable character. *)
Definition rollsDie (this : Combat) (cid : string) : bool :=
  match resolves this cid with
  | Some (_, a) => String.eqb (a_type a) "character"
  | None => false
  end.

(** Whether processing the id throws in the attribute derivation. *)
Definition throwsOn (this : Combat) (cid : string) : bool :=
  match resolves this cid with
  | Some (_, a) =>
      String.eqb (a_type a) "character"
      && match characterWisdom (a_system a) with
         | inl _ => true
         | inr _ => false
         end
  | None => false
  end.

(** The id carried by the entry of an occurrence, when it has one. *)
Definition entryId (this : Combat) (cid : string) : option string :=
  match resolves this cid with
  | Some (c, _) => Some (c_id c)
  | None => None
  end.

(** A schedule pairs every occurrence of an id in the input with the draw
    assigned to it; the draw of an occurrence that rolls no die is ignored. *)
Definition idsOf (plan : list (string * Z)) : list string := fst <$> plan.

Definition drawsOf (this : Combat) (plan : list (string * Z)) : list Z :=
  omap (λ p, if rollsDie this p.1 then Some p.2 else None) plan.

(** The world in which the dice engine delivers the draws of a schedule. *)
Definition scheduled (this : Combat) (plan : list (string * Z)) : World :=
  {| pendingRolls := drawsOf this plan; storeCalls := [] |}.

(** The rank and flag of a combatant as a function of its entity type, its
    willpower value and its draw alone. *)
Definition rankAndFlag (character : bool) (wis : JsNumber) (draw : Z)
    : Z * option CritInit :=
  if character
  then (initiativeValue (characterOutcome wis draw),
        critFlag (characterOutcome wis draw))
  else (2000, None).

(** The entry of one scheduled occurrence, from its own combatant and draw. *)
Definition entryOf (this : Combat) (p : string * Z) : option Update :=
  match resolves this p.1 with
  | None => None
  | Some (c, a) =>
      let character := String.eqb (a_type a) "character" in
      match (if character then characterWisdom (a_system a)
             else inr (ofZ 10)) with
      | inl _ => None
      | inr wis =>
          Some {| _id := c_id c;
                  initiative := (rankAndFlag character wis p.2).1;
                  flags_bsh_critInit := (rankAndFlag character wis p.2).2 |}
      end
  end.

(** All entries submitted to the store, over all calls. *)
Definition submitted (w : World) : list Update :=
  mjoin (entries <$> storeCalls w).

(** A combatant with its stored initiative and critical flag erased. *)
Definition unrolled (c : Combatant) : Combatant :=
  {| c_id := c_id c; c_actor := c_actor c;
     c_initiative := None; c_critInit := None |}.

Definition unrolledCombat (this : Combat) : Combat :=
  {| combatants := unrolled <$> combatants this |}.

(** The flag of an entry is null, or records a total of 1 or of 20. *)
Definition flagRecomputed (u : Update) : Prop :=
  flags_bsh_critInit u = None
  ∨ (flags_bsh_critInit u = Some critSuccess ∧ initiative u = 2999)
  ∨ (flags_bsh_critInit u = Some critFailure ∧ initiative u = 980).

(** An entry built from the outcome of a monster or of a character. *)
Definition emittedEntry (u : Update) : Prop :=
  ∃ c o, u = queued c o
         ∧ (o = monsterOutcome ∨ ∃ wis total, o = characterOutcome wis total).

(** The condition under which a turn for a resolved combatant returns: a
    character needs a derivation that does not throw and a roll that the
    engine delivers. *)
Definition ready (a : Actor) (w : World) : Prop :=
  a_type a = "character"%string →
  (∃ wis, characterWisdom (a_system a) = inr wis) ∧ pendingRolls w ≠ [].

Ltac unfold_M := unfold mbind, M_bind, mret, M_ret, lift in *.

(** ** A sample encounter

    A character with cached wisdom 10, a monster with stored wisdom 14, and
    a combatant whose actor is gone. *)

Definition sampleCharacter : Actor :=
  {| a_type := "character";
     a_system := {| calculated := JsObj {[ "wisdom"%string := JsNum (ofZ 10) ]};
                    attributes := JsUndefined;
                    backgrounds := JsUndefined;
                    stories := JsUndefined |} |}.

Definition sampleMonster : Actor :=
  {| a_type := "creature";
     a_system := {| calculated := JsUndefined;
                    attributes := JsObj {[ "wisdom"%string := JsNum (ofZ 14) ]};
                    backgrounds := JsUndefined;
                    stories := JsUndefined |} |}.

Definition heroCombatant : Combatant :=
  {| c_id := "hero"; c_actor := Some sampleCharacter;
     c_initiative := None; c_critInit := None |}.

Definition ghoulCombatant : Combatant :=
  {| c_id := "ghoul"; c_actor := Some sampleMonster;
     c_initiative := Some (ofZ 2000); c_critInit := None |}.

Definition orphanCombatant : Combatant :=
  {| c_id := "orphan"; c_actor := None;
     c_initiative := None; c_critInit := None |}.

Definition sampleCombat : Combat :=
  {| combatants :=
       {[ "hero"%string := heroCombatant;
          "ghoul"%string := ghoulCombatant;
          "orphan"%string := orphanCombatant ]} |}.

(** A derivation that always throws, and a store that accepts everything. *)
Definition noDerivation : System → option (gmap string JsValue) := λ _, None.
Definition acceptAll : StoreCall → bool := λ _, true.

(** The same encounter once the hero has rolled 5, shown in a tracker with
    one row per combatant. *)
Definition rolledHero : Combatant :=
  {| c_id := "hero"; c_actor := Some sampleCharacter;
     c_initiative := Some (ofZ 2995); c_critInit := None |}.

Definition sampleTracker : TrackerApp :=
  {| t_combat :=
       Some {| t_combatants :=
                 Some {[ "hero"%string := rolledHero;
                         "ghoul"%string := ghoulCombatant ]} |} |}.

Definition sampleRows : list Row :=
  [ {| dataset_combatantId := Some "hero"%string;
       initSpan := Some "2995"%string |};
    {| dataset_combatantId := Some "ghoul"%string;
       initSpan := Some "2000"%string |} ].

Definition world (rolls : list Z) : World :=
  {| pendingRolls := rolls; storeCalls := [] |}.

(** ** Lemmas on the classification *)

Lemma characterOutcome_raw wis total : raw (characterOutcome wis total) = total.
Proof.
  unfold characterOutcome.
  destruct (total =? 1), (total =? 20), (lessThan (ofZ total) wis); reflexivity.
Qed.

Lemma characterOutcome_rank wis total :
  initiativeValue (characterOutcome wis total)
  = bucket (characterOutcome wis total) * 1000 - total.
Proof.
  unfold characterOutcome.
  destruct (total =? 1), (total =? 20), (lessThan (ofZ total) wis); reflexivity.
Qed.

Lemma characterOutcome_one wis :
  bucket (characterOutcome wis 1) = 3
  ∧ critFlag (characterOutcome wis 1) = Some critSuccess.
Proof. split; reflexivity. Qed.

Lemma characterOutcome_twenty wis :
  bucket (characterOutcome wis 20) = 1
  ∧ critFlag (characterOutcome wis 20) = Some critFailure.
Proof. split; reflexivity. Qed.

Lemma characterOutcome_under wis total :
  total ≠ 1 → total ≠ 20 → lessThan (ofZ total) wis = true →
  bucket (characterOutcome wis total) = 3
  ∧ critFlag (characterOutcome wis total) = None.
Proof.
  intros H1 H20 Hlt. unfold characterOutcome.
  apply Z.eqb_neq in H1, H20. rewrite H1, H20, Hlt. split; reflexivity.
Qed.

Lemma characterOutcome_not_under wis total :
  total ≠ 1 → total ≠ 20 → lessThan (ofZ total) wis = false →
  bucket (characterOutcome wis total) = 1
  ∧ critFlag (characterOutcome wis total) = None.
Proof.
  intros H1 H20 Hlt. unfold characterOutcome.
  apply Z.eqb_neq in H1, H20. rewrite H1, H20, Hlt. split; reflexivity.
Qed.

Lemma greaterEqual_not_lessThan a b :
  greaterEqual a b = true → lessThan a b = false.
Proof.
  unfold greaterEqual.
  destruct a, b; try discriminate; intros H; apply negb_true_iff in H; exact H.
Qed.

(** A character lands in bucket 3 or in bucket 1, and in bucket 3 the total
    is not 20, in bucket 1 it is not 1. *)
Lemma characterOutcome_buckets wis total :
  (bucket (characterOutcome wis total) = 3 ∧ total ≠ 20)
  ∨ (bucket (characterOutcome wis total) = 1 ∧ total ≠ 1).
Proof.
  unfold characterOutcome.
  destruct (Z.eqb_spec total 1) as [->|H1]; [left; split; [reflexivity|lia]|].
  destruct (Z.eqb_spec total 20) as [->|H20]; [right; split; [reflexivity|lia]|].
  destruct (lessThan _ _); [left|right]; split; auto.
Qed.

(** The three rank sets of the outcomes. *)
Lemma possible_rank o :
  possible o →
  (bucket o = 3 ∧ 1 ≤ raw o ≤ 19 ∧ 2981 ≤ initiativeValue o ≤ 2999)
  ∨ (bucket o = 2 ∧ raw o = 0 ∧ initiativeValue o = 2000)
  ∨ (bucket o = 1 ∧ 2 ≤ raw o ≤ 20 ∧ 980 ≤ initiativeValue o ≤ 998).
Proof.
  intros [|wis total Hr].
  - right; left. repeat split; reflexivity.
  - rewrite characterOutcome_rank, characterOutcome_raw.
    destruct (characterOutcome_buckets wis total) as [[-> H]|[-> H]].
    + left. repeat split; lia.
    + right; right. repeat split; lia.
Qed.

Lemma possible_rank_formula o :
  possible o → initiativeValue o = bucket o * 1000 - raw o.
Proof.
  intros [|wis total Hr]; [reflexivity|].
  rewrite characterOutcome_raw. apply characterOutcome_rank.
Qed.

(** ** Lemmas on one turn of the loop *)

Lemma iteration_unresolved this cid updates w :
  resolves this cid = None → iteration this cid updates w = (inr updates, w).
Proof.
  unfold resolves, iteration. intros H.
  destruct (combatants this !! cid) as [c|]; [|reflexivity].
  destruct (c_actor c); [discriminate|reflexivity].
Qed.

Lemma iteration_monster this cid c a updates w :
  resolves this cid = Some (c, a) → a_type a ≠ "character"%string →
  iteration this cid updates w = (inr (updates ++ [queued c monsterOutcome]), w).
Proof.
  unfold resolves, iteration. intros H Hty.
  destruct (combatants this !! cid) as [c'|]; [|discriminate].
  destruct (c_actor c') as [a'|]; [|discriminate].
  injection H as -> ->.
  apply String.eqb_neq in Hty. rewrite Hty. reflexivity.
Qed.

Lemma iteration_character this cid c a updates w :
  resolves this cid = Some (c, a) → a_type a = "character"%string →
  iteration this cid updates w =
  match characterWisdom (a_system a) with
  | inl e => (inl e, w)
  | inr wis =>
    match pendingRolls w with
    | [] => (inl RollRejected, w)
    | total :: rest =>
        (inr (updates ++ [queued c (characterOutcome wis total)]),
         {| pendingRolls := rest; storeCalls := storeCalls w |})
    end
  end.
Proof.
  unfold resolves, iteration. intros H Hty.
  destruct (combatants this !! cid) as [c'|]; [|discriminate].
  destruct (c_actor c') as [a'|]; [|discriminate].
  injection H as -> ->.
  rewrite Hty. simpl.
  unfold_M. unfold roll1d20.
  destruct (characterWisdom (a_system a)); [reflexivity|].
  destruct (pendingRolls w); reflexivity.
Qed.

(** ** Lemmas on the loop *)

Lemma forOf_cons this cid ids updates w :
  forOf this (cid :: ids) updates w =
  match iteration this cid updates w with
  | (inl e, w') => (inl e, w')
  | (inr us, w') => forOf this ids us w'
  end.
Proof. reflexivity. Qed.

Lemma forOf_app this ids1 ids2 updates w :
  forOf this (ids1 ++ ids2) updates w =
  match forOf this ids1 updates w with
  | (inl e, w') => (inl e, w')
  | (inr us, w') => forOf this ids2 us w'
  end.
Proof.
  revert updates w. induction ids1 as [|cid ids1 IH]; intros updates w.
  - reflexivity.
  - simpl app. rewrite !forOf_cons.
    destruct (iteration this cid updates w) as [[e|us] w']; [reflexivity|].
    apply IH.
Qed.

(** What a turn that returns has done. *)
Lemma iteration_inr this cid updates w us w' :
  iteration this cid updates w = (inr us, w') →
  storeCalls w' = storeCalls w
  ∧ throwsOn this cid = false
  ∧ ((resolves this cid = None ∧ us = updates ∧ w' = w)
     ∨ (∃ c a u, resolves this cid = Some (c, a)
                 ∧ us = updates ++ [u] ∧ _id u = c_id c ∧ emittedEntry u)).
Proof.
  intros H. unfold throwsOn.
  destruct (resolves this cid) as [[c a]|] eqn:Hres.
  - destruct (String.eqb_spec (a_type a) "character") as [Hty|Hty].
    + rewrite (iteration_character _ _ _ _ _ _ Hres Hty) in H.
      destruct (characterWisdom (a_system a)) as [e|wis]; [discriminate|].
      destruct (pendingRolls w) as [|total rest]; [discriminate|].
      injection H as <- <-. repeat split.
      right. exists c, a, (queued c (characterOutcome wis total)).
      repeat split. exists c, (characterOutcome wis total). eauto.
    + rewrite (iteration_monster _ _ _ _ _ _ Hres Hty) in H.
      injection H as <- <-. repeat split.
      right. exists c, a, (queued c monsterOutcome).
      repeat split. exists c, monsterOutcome. eauto.
  - rewrite (iteration_unresolved _ _ _ _ Hres) in H.
    injection H as <- <-. repeat split. left. done.
Qed.

(** A turn that throws leaves the store alone. *)
Lemma iteration_log this cid updates w r w' :
  iteration this cid updates w = (r, w') → storeCalls w' = storeCalls w.
Proof.
  intros H. destruct r as [e|us]; [|by apply iteration_inr in H as [? _]].
  destruct (resolves this cid) as [[c a]|] eqn:Hres.
  - destruct (String.eqb_spec (a_type a) "character") as [Hty|Hty].
    + rewrite (iteration_character _ _ _ _ _ _ Hres Hty) in H.
      destruct (characterWisdom (a_system a)); [by injection H as _ <-|].
      destruct (pendingRolls w); [by injection H as _ <-|discriminate].
    + rewrite (iteration_monster _ _ _ _ _ _ Hres Hty) in H. discriminate.
  - rewrite (iteration_unresolved _ _ _ _ Hres) in H. discriminate.
Qed.

Lemma forOf_log this ids updates w r w' :
  forOf this ids updates w = (r, w') → storeCalls w' = storeCalls w.
Proof.
  revert updates w. induction ids as [|cid ids IH]; intros updates w H.
  - by injection H as _ <-.
  - rewrite forOf_cons in H.
    destruct (iteration this cid updates w) as [[e|us] w1] eqn:Hit.
    + injection H as _ <-. eapply iteration_log, Hit.
    + rewrite (IH _ _ H). eapply iteration_log, Hit.
Qed.

(** A loop that returns has queued one entry per resolvable occurrence, in
    the order of the input, and met no throwing occurrence. *)
Lemma forOf_inr this ids updates w us w' :
  forOf this ids updates w = (inr us, w') →
  ∃ new, us = updates ++ new
         ∧ _id <$> new = omap (entryId this) ids
         ∧ Forall emittedEntry new
         ∧ forallb (λ cid, negb (throwsOn this cid)) ids = true.
Proof.
  revert updates w. induction ids as [|cid ids IH]; intros updates w H.
  - injection H as <- _. exists []. by rewrite app_nil_r.
  - rewrite forOf_cons in H.
    destruct (iteration this cid updates w) as [[e|us1] w1] eqn:Hit;
      [discriminate|].
    apply iteration_inr in Hit as (_ & Hthr & Hcase).
    apply IH in H as (new & -> & Hids & Hall & Hok).
    simpl forallb. rewrite Hthr, Hok. unfold entryId in *. simpl omap.
    destruct Hcase as [(Hres & -> & _)|(c & a & u & Hres & -> & Hu & Hem)];
      rewrite Hres.
    + exists new. done.
    + exists (u :: new). rewrite <- app_assoc. simpl.
      repeat split; auto. rewrite Hu. f_equal. exact Hids.
Qed.

Lemma emittedEntry_flag u : emittedEntry u → flagRecomputed u.
Proof.
  intros (c & o & -> & [->|(wis & total & ->)]); unfold flagRecomputed; simpl.
  - by left.
  - unfold characterOutcome.
    destruct (Z.eqb_spec total 1) as [->|H1]; [right; left; done|].
    destruct (Z.eqb_spec total 20) as [->|H20]; [right; right; done|].
    destruct (lessThan (ofZ total) wis); by left.
Qed.

(** Fed with the draws of a schedule without throwing occurrence, the loop
    queues the entry of every occurrence and uses up exactly its draws. *)
Lemma forOf_scheduled this plan updates extra log :
  forallb (λ cid, negb (throwsOn this cid)) (idsOf plan) = true →
  forOf this (idsOf plan) updates
    {| pendingRolls := drawsOf this plan ++ extra; storeCalls := log |}
  = (inr (updates ++ omap (entryOf this) plan),
     {| pendingRolls := extra; storeCalls := log |}).
Proof.
  revert updates. induction plan as [|[cid d] plan IH]; intros updates Hok.
  - simpl. by rewrite app_nil_r.
  - simpl in Hok. apply andb_true_iff in Hok as [Hcid Hok].
    apply negb_true_iff in Hcid. unfold idsOf in *. simpl fmap.
    rewrite forOf_cons. unfold drawsOf, entryOf, rollsDie, throwsOn in *.
    simpl omap. simpl fst in *. simpl snd.
    destruct (resolves this cid) as [[c a]|] eqn:Hres.
    + destruct (String.eqb_spec (a_type a) "character") as [Hty|Hty].
      * rewrite (iteration_character _ _ _ _ _ _ Hres Hty).
        destruct (characterWisdom (a_system a)) as [e|wis]; [discriminate|].
        simpl. rewrite (IH _ Hok), <- app_assoc. reflexivity.
      * rewrite (iteration_monster _ _ _ _ _ _ Hres Hty).
        rewrite (IH _ Hok), <- app_assoc. reflexivity.
    + rewrite (iteration_unresolved _ _ _ _ Hres). apply IH, Hok.
Qed.

(** ** Properties of the classification *)

(** C1. For a player character whose willpower resolves to [wis] and for
    which the die shows [total], the turn of the loop queues one entry whose
    rank is [b * 1000 - total], where a total of 1 gives bucket 3 and the
    critical-success flag, a total of 20 gives bucket 1 and the
    critical-failure flag, and any other total gives bucket 3 without flag
    when [total < wis] and bucket 1 without flag when [total >= wis]. *)
Theorem C1_character_roll this cid c a wis total rest updates w :
  resolves this cid = Some (c, a) →
  a_type a = "character"%string →
  characterWisdom (a_system a) = inr wis →
  pendingRolls w = total :: rest →
  ∃ b f,
    iteration this cid updates w
    = (inr (updates ++ [{| _id := c_id c;
                           initiative := b * 1000 - total;
                           flags_bsh_critInit := f |}]),
       {| pendingRolls := rest; storeCalls := storeCalls w |})
    ∧ (total = 1 → b = 3 ∧ f = Some critSuccess)
    ∧ (total = 20 → b = 1 ∧ f = Some critFailure)
    ∧ (total ≠ 1 → total ≠ 20 → lessThan (ofZ total) wis = true →
       b = 3 ∧ f = None)
    ∧ (total ≠ 1 → total ≠ 20 → greaterEqual (ofZ total) wis = true →
       b = 1 ∧ f = None).
Proof.
  intros Hres Hty Hwis Hrolls.
  exists (bucket (characterOutcome wis total)),
         (critFlag (characterOutcome wis total)).
  split.
  - rewrite (iteration_character _ _ _ _ _ _ Hres Hty), Hwis, Hrolls.
    unfold queued. rewrite characterOutcome_rank. reflexivity.
  - split; [intros ->; apply characterOutcome_one|].
    split; [intros ->; apply characterOutcome_twenty|].
    split; intros H1 H20 H.
    + by apply characterOutcome_under.
    + by apply characterOutcome_not_under, greaterEqual_not_lessThan.
Qed.

(** C2 (amended). With dice in 1..20, every combatant that receives a rank
    receives it in one of three disjoint sets: 2981..2999 for a character
    in the fast bucket, 2000 for a monster or NPC, and 980..999 for a
    character in the slow bucket (980..998 are the ranks reached there); a
    character whose die shows 20 receives exactly 980. *)
Theorem C2_rank_sets this cid c a updates w :
  resolves this cid = Some (c, a) →
  (a_type a ≠ "character"%string →
   ∃ u, iteration this cid updates w = (inr (updates ++ [u]), w)
        ∧ initiative u = 2000)
  ∧ (a_type a = "character"%string →
     ∀ wis total rest,
       characterWisdom (a_system a) = inr wis →
       pendingRolls w = total :: rest →
       1 ≤ total ≤ 20 →
       ∃ u, iteration this cid updates w
            = (inr (updates ++ [u]),
               {| pendingRolls := rest; storeCalls := storeCalls w |})
            ∧ ((bucket (characterOutcome wis total) = 3
                ∧ 2981 ≤ initiative u ≤ 2999)
               ∨ (bucket (characterOutcome wis total) = 1
                  ∧ 980 ≤ initiative u ≤ 998))
            ∧ (total = 20 → initiative u = 980)).
Proof.
  intros Hres. split.
  - intros Hty. exists (queued c monsterOutcome).
    split; [by apply iteration_monster with a|reflexivity].
  - intros Hty wis total rest Hwis Hrolls Hrange.
    exists (queued c (characterOutcome wis total)). split.
    + by rewrite (iteration_character _ _ _ _ _ _ Hres Hty), Hwis, Hrolls.
    + simpl. split; [|by intros ->].
      destruct (possible_rank _ (possible_character wis total Hrange))
        as [(Hb & _ & Hr)|[(Hb & _ & Hr)|(Hb & _ & Hr)]].
      * by left.
      * destruct (characterOutcome_buckets wis total) as [[Hb' _]|[Hb' _]];
          rewrite Hb' in Hb; discriminate.
      * by right.
Qed.

(** C3. A monster or NPC is queued with rank 2000 and no critical flag; the
    world is left as it was, so no roll is evaluated (none needs to be
    available); and the result is the same whatever its system data holds,
    the stored wisdom in particular. *)
Theorem C3_monster_fixed this cid c a updates w :
  resolves this cid = Some (c, a) →
  a_type a ≠ "character"%string →
  iteration this cid updates w
  = (inr (updates ++ [{| _id := c_id c; initiative := 2000;
                         flags_bsh_critInit := None |}]), w)
  ∧ (∀ this' c' a',
       resolves this' cid = Some (c', a') →
       a_type a' ≠ "character"%string →
       c_id c' = c_id c →
       iteration this' cid updates w = iteration this cid updates w).
Proof.
  intros Hres Hty. split.
  - by rewrite (iteration_monster _ _ _ _ _ _ Hres Hty).
  - intros this' c' a' Hres' Hty' Hid.
    rewrite (iteration_monster _ _ _ _ _ _ Hres Hty),
            (iteration_monster _ _ _ _ _ _ Hres' Hty').
    unfold queued. by rewrite Hid.
Qed.

Lemma rank_order_bucket_order o1 o2 :
  possible o1 → possible o2 → rankDescending o1 o2 → bucketDescending o1 o2.
Proof.
  intros H1 H2. unfold rankDescending, bucketDescending.
  destruct (possible_rank _ H1) as [(-> & _ & ?)|[(-> & _ & ?)|(-> & _ & ?)]];
  destruct (possible_rank _ H2) as [(-> & _ & ?)|[(-> & _ & ?)|(-> & _ & ?)]];
  lia.
Qed.

Lemma sorted_by_rank_sorted_by_bucket l :
  Forall possible l →
  StronglySorted rankDescending l → StronglySorted bucketDescending l.
Proof.
  intros Hall Hs. induction Hs as [|o l Hs IH Hhd]; constructor.
  - apply IH. by apply Forall_inv_tail in Hall.
  - apply Forall_cons in Hall as [Ho Hl].
    rewrite Forall_forall in *. intros x Hx.
    apply rank_order_bucket_order; auto.
Qed.

(** C4. Among the outcomes of combatants, a higher bucket means a strictly
    higher rank (fast characters above monsters above slow characters);
    within a bucket a lower die means a strictly higher rank; the die is
    recovered from the rank as [bucket * 1000 - rank]; distinct dice in a
    bucket give distinct ranks; and a list sorted by descending rank is
    sorted by descending bucket. *)
Theorem C4_rank_order :
  (∀ o1 o2, possible o1 → possible o2 →
     bucket o1 > bucket o2 → initiativeValue o1 > initiativeValue o2)
  ∧ (∀ o1 o2, possible o1 → possible o2 →
       bucket o1 = bucket o2 → raw o1 < raw o2 →
       initiativeValue o1 > initiativeValue o2)
  ∧ (∀ o, possible o → raw o = bucket o * 1000 - initiativeValue o)
  ∧ (∀ o1 o2, possible o1 → possible o2 →
       bucket o1 = bucket o2 → raw o1 ≠ raw o2 →
       initiativeValue o1 ≠ initiativeValue o2)
  ∧ (∀ l, Forall possible l →
       StronglySorted rankDescending l → StronglySorted bucketDescending l).
Proof.
  repeat split.
  - intros o1 o2 H1 H2 Hb.
    destruct (possible_rank _ H1) as [(? & _ & ?)|[(? & _ & ?)|(? & _ & ?)]];
    destruct (possible_rank _ H2) as [(? & _ & ?)|[(? & _ & ?)|(? & _ & ?)]];
    lia.
  - intros o1 o2 H1 H2 Hb Hr.
    rewrite (possible_rank_formula _ H1), (possible_rank_formula _ H2). lia.
  - intros o H. rewrite (possible_rank_formula _ H). lia.
  - intros o1 o2 H1 H2 Hb Hr.
    rewrite (possible_rank_formula _ H1), (possible_rank_formula _ H2). lia.
  - apply sorted_by_rank_sorted_by_bucket.
Qed.

(** ** Properties of the whole call *)

Lemma run_unfold this ids w :
  _rollCombatantInitiatives this ids w =
  match forOf this ids [] w with
  | (inl e, w') => (inl e, w')
  | (inr us, w') =>
      if negb (Nat.eqb (length us) 0)
      then updateEmbeddedDocuments "Combatant" us true w'
      else (inr tt, w')
  end.
Proof.
  unfold _rollCombatantInitiatives. unfold_M.
  destruct (forOf this ids [] w) as [[e|us] w']; [reflexivity|].
  destruct (negb (Nat.eqb (length us) 0)); reflexivity.
Qed.

Lemma updateEmbeddedDocuments_log name us d w :
  storeCalls (updateEmbeddedDocuments name us d w).2
  = storeCalls w ++ [{| documentName := name; entries := us; diff := d |}].
Proof.
  unfold updateEmbeddedDocuments. by destruct (storeAccepts _).
Qed.

Lemma forOf_skip this bad ids1 ids2 updates w :
  resolves this bad = None →
  forOf this (ids1 ++ bad :: ids2) updates w
  = forOf this (ids1 ++ ids2) updates w.
Proof.
  intros Hbad. rewrite !forOf_app.
  destruct (forOf this ids1 updates w) as [[e|us] w']; [reflexivity|].
  by rewrite forOf_cons, (iteration_unresolved _ _ _ _ Hbad).
Qed.

(** The call on a single resolvable, ready combatant submits one batch of
    one entry, carrying the id of the combatant. *)
Lemma run_single this good c a w :
  resolves this good = Some (c, a) → ready a w →
  ∃ u, storeCalls (_rollCombatantInitiatives this [good] w).2
       = storeCalls w ++ [{| documentName := "Combatant";
                             entries := [u]; diff := true |}]
       ∧ _id u = c_id c.
Proof.
  intros Hres Hready. rewrite run_unfold, forOf_cons.
  destruct (String.eqb_spec (a_type a) "character") as [Hty|Hty].
  - destruct (Hready Hty) as [[wis Hwis] Hrolls].
    rewrite (iteration_character _ _ _ _ _ _ Hres Hty), Hwis.
    destruct (pendingRolls w) as [|total rest] eqn:Hp; [done|].
    simpl forOf. unfold mret, M_ret. simpl negb. cbv iota.
    rewrite updateEmbeddedDocuments_log. simpl. eauto.
  - rewrite (iteration_monster _ _ _ _ _ _ Hres Hty).
    simpl forOf. unfold mret, M_ret. simpl negb. cbv iota.
    rewrite updateEmbeddedDocuments_log. eauto.
Qed.

(** C5. An id whose combatant or whose actor cannot be resolved is passed
    over: its turn returns the queue and the world unchanged, without
    exception; the call behaves as if the id were not in the input; and a
    call on one resolvable (and ready) id and one unresolvable id, in either
    order, submits one batch holding exactly one entry, for the resolvable
    id. *)
Theorem C5_unresolvable_skipped this bad :
  resolves this bad = None →
  (∀ updates w, iteration this bad updates w = (inr updates, w))
  ∧ (∀ ids1 ids2 w,
       _rollCombatantInitiatives this (ids1 ++ bad :: ids2) w
       = _rollCombatantInitiatives this (ids1 ++ ids2) w)
  ∧ (∀ good c a w ids,
       keyed this → resolves this good = Some (c, a) → ready a w →
       ids = [good; bad] ∨ ids = [bad; good] →
       ∃ u, storeCalls (_rollCombatantInitiatives this ids w).2
            = storeCalls w ++ [{| documentName := "Combatant";
                                  entries := [u]; diff := true |}]
            ∧ _id u = good).
Proof.
  intros Hbad.
  assert (Hskip : ∀ ids1 ids2 w,
    _rollCombatantInitiatives this (ids1 ++ bad :: ids2) w
    = _rollCombatantInitiatives this (ids1 ++ ids2) w).
  { intros ids1 ids2 w. by rewrite !run_unfold, (forOf_skip _ _ _ _ _ _ Hbad). }
  split; [intros updates w; by apply iteration_unresolved|].
  split; [exact Hskip|].
  intros good c a w ids Hkeyed Hres Hready Hids.
  assert (Hgood : c_id c = good).
  { apply Hkeyed. unfold resolves in Hres.
    destruct (combatants this !! good) as [c'|]; [|discriminate].
    destruct (c_actor c'); [|discriminate]. by injection Hres as -> _. }
  destruct (run_single _ _ _ _ _ Hres Hready) as (u & Hlog & Hu).
  exists u. rewrite <- Hgood, Hu. split; [|done].
  destruct Hids as [-> | ->].
  - pose proof (Hskip [good] [] w) as E. simpl in E. by rewrite E.
  - pose proof (Hskip [] [good] w) as E. simpl in E. by rewrite E.
Qed.


Lemma characterWisdom_inl sys e :
  characterWisdom sys = inl e → e = DerivationThrew.
Proof.
  unfold characterWisdom.
  destruct (negb (truthy (calculated sys))); [|discriminate].
  destruct (calculateAttributeValues sys); [discriminate|].
  by intros [= <-].
Qed.

Lemma iteration_inl this cid updates w e w' :
  iteration this cid updates w = (inl e, w') →
  e = DerivationThrew ∨ e = RollRejected.
Proof.
  intros H. destruct (resolves this cid) as [[c a]|] eqn:Hres.
  - destruct (String.eqb_spec (a_type a) "character") as [Hty|Hty].
    + rewrite (iteration_character _ _ _ _ _ _ Hres Hty) in H.
      destruct (characterWisdom (a_system a)) as [e'|wis] eqn:Hwis.
      * injection H as <- _. left. by apply characterWisdom_inl in Hwis.
      * destruct (pendingRolls w); [|discriminate].
        injection H as <- _. by right.
    + rewrite (iteration_monster _ _ _ _ _ _ Hres Hty) in H. discriminate.
  - rewrite (iteration_unresolved _ _ _ _ Hres) in H. discriminate.
Qed.

Lemma forOf_inl this ids updates w e w' :
  forOf this ids updates w = (inl e, w') →
  e = DerivationThrew ∨ e = RollRejected.
Proof.
  revert updates w. induction ids as [|cid ids IH]; intros updates w H.
  - discriminate.
  - rewrite forOf_cons in H.
    destruct (iteration this cid updates w) as [[e1|us] w1] eqn:Hit.
    + injection H as <- _. eapply iteration_inl, Hit.
    + eapply IH, H.
Qed.

Lemma iteration_unrolled this cid updates w :
  iteration (unrolledCombat this) cid updates w = iteration this cid updates w.
Proof.
  assert (H : combatants (unrolledCombat this) !! cid
              = unrolled <$> combatants this !! cid) by apply lookup_fmap.
  unfold iteration. rewrite H.
  destruct (combatants this !! cid) as [c|]; reflexivity.
Qed.

Lemma forOf_unrolled this ids updates w :
  forOf (unrolledCombat this) ids updates w = forOf this ids updates w.
Proof.
  revert updates w. induction ids as [|cid ids IH]; intros updates w.
  - reflexivity.
  - rewrite !forOf_cons, iteration_unrolled.
    destruct (iteration this cid updates w) as [[e|us] w1]; [reflexivity|].
    apply IH.
Qed.

(** C7. A call submits at most one batch.  A submitted batch is addressed
    to the "Combatant" documents, is not empty, holds one entry per
    resolvable occurrence of an id in the input, in input order, and every
    entry carries the flag computed from its own roll (null unless the die
    showed 1 or 20).  No batch is submitted when no occurrence is
    resolvable, and a call without batch has either no resolvable occurrence
    or ended in an exception of the loop.  The initiative and flag already
    stored on the combatants have no influence. *)
Theorem C7_single_batch this ids w :
  (∀ r w', _rollCombatantInitiatives this ids w = (r, w') →
     ∃ calls,
       storeCalls w' = storeCalls w ++ calls
       ∧ (calls = []
          ∨ ∃ us, calls = [{| documentName := "Combatant";
                              entries := us; diff := true |}]
                  ∧ us ≠ []
                  ∧ _id <$> us = omap (entryId this) ids
                  ∧ Forall flagRecomputed us)
       ∧ (omap (entryId this) ids = [] → calls = [])
       ∧ (calls = [] →
          omap (entryId this) ids = []
          ∨ r = inl DerivationThrew ∨ r = inl RollRejected))
  ∧ _rollCombatantInitiatives (unrolledCombat this) ids w
    = _rollCombatantInitiatives this ids w.
Proof.
  split.
  - intros r w' Hrun. rewrite run_unfold in Hrun.
    destruct (forOf this ids [] w) as [[e|us] w1] eqn:Hloop.
    + injection Hrun as <- <-. exists [].
      rewrite app_nil_r, (forOf_log _ _ _ _ _ _ Hloop).
      repeat split; auto. intros _. right.
      destruct (forOf_inl _ _ _ _ _ _ Hloop) as [-> | ->]; auto.
    + pose proof (forOf_log _ _ _ _ _ _ Hloop) as Hlog.
      apply forOf_inr in Hloop as (new & -> & Hids & Hall & _).
      simpl app in Hrun. destruct new as [|u new]; simpl in Hrun.
      * injection Hrun as <- <-. exists [].
        rewrite app_nil_r, Hlog, <- Hids. repeat split; auto.
      * pose proof (updateEmbeddedDocuments_log "Combatant" (u :: new) true w1)
          as Hcall.
        rewrite Hrun in Hcall. simpl in Hcall. rewrite Hlog in Hcall.
        eexists. split; [exact Hcall|]. rewrite <- Hids.
        split; [|split; discriminate].
        right. exists (u :: new). repeat split; [discriminate|].
        eapply Forall_impl; [exact Hall|]. apply emittedEntry_flag.
  - by rewrite !run_unfold, forOf_unrolled.
Qed.

Lemma forallb_Permutation {A} (f : A → bool) (l l' : list A) :
  l ≡ₚ l' → forallb f l = forallb f l'.
Proof.
  induction 1 as [|x l l' _ IH|x y l|l l1 l' _ IH1 _ IH2]; simpl.
  - reflexivity.
  - by rewrite IH.
  - destruct (f x), (f y); reflexivity.
  - by rewrite IH1.
Qed.

(** What a call on a scheduled world submits. *)
Lemma submitted_scheduled this plan :
  submitted (_rollCombatantInitiatives this (idsOf plan)
               (scheduled this plan)).2
  = if forallb (λ cid, negb (throwsOn this cid)) (idsOf plan)
    then omap (entryOf this) plan
    else [].
Proof.
  rewrite run_unfold.
  destruct (forallb _ (idsOf plan)) eqn:Hok.
  - unfold scheduled. rewrite <- (app_nil_r (drawsOf this plan)).
    rewrite (forOf_scheduled _ _ _ _ _ Hok). simpl app.
    destruct (omap (entryOf this) plan) as [|u us]; simpl.
    + reflexivity.
    + unfold submitted. rewrite updateEmbeddedDocuments_log. simpl.
      by rewrite app_nil_r.
  - destruct (forOf this (idsOf plan) [] (scheduled this plan))
      as [[e|us] w1] eqn:Hloop.
    + apply forOf_log in Hloop. unfold submitted. simpl. by rewrite Hloop.
    + apply forOf_inr in Hloop as (_ & _ & _ & _ & Hok').
      rewrite Hok' in Hok. discriminate.
Qed.

(** C8. Let every occurrence of an id in the input come with its draw.  The
    entries submitted by the call are then a permutation of each other for
    any two orders of the input; and when no derivation throws they are
    the entries of the occurrences, each computed from the id, the entity
    type, the willpower and the draw of its own combatant. *)
Theorem C8_order_independent this plan plan' :
  plan ≡ₚ plan' →
  submitted (_rollCombatantInitiatives this (idsOf plan)
               (scheduled this plan)).2
  ≡ₚ submitted (_rollCombatantInitiatives this (idsOf plan')
                  (scheduled this plan')).2
  ∧ (forallb (λ cid, negb (throwsOn this cid)) (idsOf plan) = true →
     submitted (_rollCombatantInitiatives this (idsOf plan)
                  (scheduled this plan)).2
     = omap (entryOf this) plan).
Proof.
  intros Hperm. split.
  - rewrite !submitted_scheduled.
    assert (Hids : idsOf plan ≡ₚ idsOf plan') by (unfold idsOf; by rewrite Hperm).
    rewrite (forallb_Permutation _ _ _ Hids).
    destruct (forallb _ (idsOf plan')); [by rewrite Hperm|reflexivity].
  - intros Hok. by rewrite submitted_scheduled, Hok.
Qed.

(** ** Properties of the combat tracker *)

Lemma lessThan_ofZ x y : lessThan (ofZ x) (ofZ y) = (x <? y).
Proof.
  unfold lessThan, ofZ, Qle_bool. simpl.
  rewrite !Z.mul_1_r. rewrite Z.ltb_antisym. reflexivity.
Qed.

Lemma eachRow_found cs li combatantId combatant text :
  dataset_combatantId li = Some combatantId →
  combatantId ≠ ""%string →
  cs !! combatantId = Some combatant →
  initSpan li = Some text →
  eachRow cs li = {| dataset_combatantId := Some combatantId;
                     initSpan := Some (initiativeLabel combatant) |}.
Proof.
  intros Hid Hne Hc Hspan. unfold eachRow.
  rewrite Hid. apply String.eqb_neq in Hne. rewrite Hne, Hc, Hspan.
  reflexivity.
Qed.

Lemma initiativeLabel_character combatant actor rank :
  c_actor combatant = Some actor →
  a_type actor = "character"%string →
  c_initiative combatant = Some (ofZ rank) →
  initiativeLabel combatant
  = if 2000 <? rank then "Success"%string else "Failure"%string.
Proof.
  intros Hactor Hty Hrank.
  unfold initiativeLabel, isCharacter, greaterThan.
  rewrite Hactor, Hty, Hrank, String.eqb_refl.
  change (default (ofZ 0) (Some (ofZ rank))) with (ofZ rank).
  by rewrite lessThan_ofZ.
Qed.

Lemma initiativeLabel_other combatant actor :
  c_actor combatant = Some actor →
  a_type actor ≠ "character"%string →
  initiativeLabel combatant = ""%string.
Proof.
  intros Hactor Hty. unfold initiativeLabel, isCharacter.
  apply String.eqb_neq in Hty. by rewrite Hactor, Hty.
Qed.

(** C9. In the rendered tracker the initiative span of a player character
    with rank [rank] reads "Success" when [rank > 2000] and "Failure"
    otherwise, and the span of a combatant that is not a player character
    is emptied whatever its rank. *)
Theorem C9_tracker_label app combat cs (html : list Row) (i : nat) li
    combatantId combatant actor text :
  t_combat app = Some combat →
  t_combatants combat = Some cs →
  html !! i = Some li →
  dataset_combatantId li = Some combatantId →
  combatantId ≠ ""%string →
  cs !! combatantId = Some combatant →
  initSpan li = Some text →
  c_actor combatant = Some actor →
  (a_type actor = "character"%string →
   ∀ rank, c_initiative combatant = Some (ofZ rank) →
     initSpan <$> renderCombatTracker app html !! i
     = Some (Some (if 2000 <? rank then "Success"%string
                   else "Failure"%string)))
  ∧ (a_type actor ≠ "character"%string →
     initSpan <$> renderCombatTracker app html !! i = Some (Some ""%string)).
Proof.
  intros Hcombat Hcs Hli Hid Hne Hc Hspan Hactor.
  unfold renderCombatTracker. rewrite Hcombat, Hcs, list_lookup_fmap, Hli.
  cbn [fmap option_fmap option_map].
  rewrite (eachRow_found _ _ _ _ _ Hid Hne Hc Hspan). cbn [initSpan]. split.
  - intros Hty rank Hrank.
    by rewrite (initiativeLabel_character _ _ _ Hactor Hty Hrank).
  - intros Hty. by rewrite (initiativeLabel_other _ _ Hactor Hty).
Qed.

(** C10. A player character whose stored initiative is null or undefined is
    treated as having initiative 0 and is labelled "Failure"; the label is
    empty only for a combatant that is not a player character. *)
Theorem C10_unrolled_character_label cs li combatantId combatant text :
  dataset_combatantId li = Some combatantId →
  combatantId ≠ ""%string →
  cs !! combatantId = Some combatant →
  initSpan li = Some text →
  (isCharacter (c_actor combatant) = true →
   c_initiative combatant = None →
   initiativeLabel combatant
   = (if greaterThan (ofZ 0) (ofZ 2000) then "Success"%string
      else "Failure"%string)
   ∧ initSpan (eachRow cs li) = Some "Failure"%string)
  ∧ (initSpan (eachRow cs li) = Some ""%string →
     isCharacter (c_actor combatant) = false).
Proof.
  intros Hid Hne Hc Hspan.
  rewrite (eachRow_found _ _ _ _ _ Hid Hne Hc Hspan). simpl.
  unfold initiativeLabel. split.
  - intros -> ->. split; reflexivity.
  - destruct (isCharacter (c_actor combatant)); [|done].
    destruct (greaterThan _ _); discriminate.
Qed.



End BSHCombat.

(** ** The properties at the sample encounter *)

Lemma sampleCombat_keyed : keyed sampleCombat.
Proof.
  intros cid c H. unfold sampleCombat in H. cbn [combatants] in H.
  apply lookup_insert_Some in H as [[<- <-]|[_ H]]; [reflexivity|].
  apply lookup_insert_Some in H as [[<- <-]|[_ H]]; [reflexivity|].
  apply lookup_singleton_Some in H as [<- <-]. reflexivity.
Qed.

Lemma C1_character_roll_witness :
  ∃ b f,
    iteration noDerivation sampleCombat "hero" [] (world [7; 3])
    = (inr ([] ++ [{| _id := "hero"; initiative := b * 1000 - 7;
                      flags_bsh_critInit := f |}]),
       {| pendingRolls := [3]; storeCalls := [] |})
    ∧ (7 = 1 → b = 3 ∧ f = Some critSuccess)
    ∧ (7 = 20 → b = 1 ∧ f = Some critFailure)
    ∧ (7 ≠ 1 → 7 ≠ 20 → lessThan (ofZ 7) (ofZ 10) = true → b = 3 ∧ f = None)
    ∧ (7 ≠ 1 → 7 ≠ 20 → greaterEqual (ofZ 7) (ofZ 10) = true →
       b = 1 ∧ f = None).
Proof.
  apply (C1_character_roll noDerivation sampleCombat "hero"
           heroCombatant sampleCharacter (ofZ 10) 7 [3] [] (world [7; 3]));
    reflexivity.
Defined.

(** A character with wisdom 10 whose die shows 20 is queued with rank 980,
    which is outside 981..999. *)
Lemma C2_counterexample_raw20 :
  resolves sampleCombat "hero" = Some (heroCombatant, sampleCharacter)
  ∧ a_type sampleCharacter = "character"%string
  ∧ ∃ u, submitted (_rollCombatantInitiatives noDerivation acceptAll
                      sampleCombat ["hero"%string] (world [20])).2 = [u]
         ∧ initiative u = 980
         ∧ ¬ (981 ≤ initiative u ≤ 999).
Proof.
  split; [reflexivity|]. split; [reflexivity|].
  exists {| _id := "hero"; initiative := 980;
            flags_bsh_critInit := Some critFailure |}.
  split; [vm_compute; reflexivity|]. split; [reflexivity|]. simpl. lia.
Qed.

Lemma C2_rank_sets_witness :
  ∃ u, iteration noDerivation sampleCombat "hero" [] (world [20])
       = (inr ([] ++ [u]), {| pendingRolls := []; storeCalls := [] |})
       ∧ ((bucket (characterOutcome (ofZ 10) 20) = 3
           ∧ 2981 ≤ initiative u ≤ 2999)
          ∨ (bucket (characterOutcome (ofZ 10) 20) = 1
             ∧ 980 ≤ initiative u ≤ 998))
       ∧ (20 = 20 → initiative u = 980).
Proof.
  apply (proj2 (C2_rank_sets noDerivation sampleCombat "hero" heroCombatant
                  sampleCharacter [] (world [20]) eq_refl)
               eq_refl (ofZ 10) 20 []);
    [reflexivity|reflexivity|lia].
Defined.

Lemma C3_monster_fixed_witness :
  iteration noDerivation sampleCombat "ghoul" [] (world [])
  = (inr ([] ++ [{| _id := "ghoul"; initiative := 2000;
                    flags_bsh_critInit := None |}]), world []).
Proof.
  apply (proj1 (C3_monster_fixed noDerivation sampleCombat "ghoul"
                  ghoulCombatant sampleMonster [] (world [])
                  eq_refl ltac:(discriminate))).
Defined.

Lemma C4_rank_order_witness :
  initiativeValue (characterOutcome (ofZ 10) 5) > initiativeValue monsterOutcome
  ∧ initiativeValue monsterOutcome
    > initiativeValue (characterOutcome (ofZ 10) 15).
Proof.
  split.
  - apply (proj1 C4_rank_order (characterOutcome (ofZ 10) 5) monsterOutcome);
      [apply possible_character; lia|apply possible_monster|reflexivity].
  - apply (proj1 C4_rank_order monsterOutcome (characterOutcome (ofZ 10) 15));
      [apply possible_monster|apply possible_character; lia|reflexivity].
Defined.

Lemma C5_unresolvable_skipped_witness :
  resolves sampleCombat "orphan" = None
  ∧ ∃ u, storeCalls (_rollCombatantInitiatives noDerivation acceptAll
                       sampleCombat ["hero"%string; "orphan"%string]
                       (world [7])).2
         = storeCalls (world [7])
           ++ [{| documentName := "Combatant"; entries := [u]; diff := true |}]
         ∧ _id u = "hero"%string.
Proof.
  split; [reflexivity|].
  apply (proj2 (proj2 (C5_unresolvable_skipped noDerivation acceptAll
                         sampleCombat "orphan" eq_refl))
           "hero"%string heroCombatant sampleCharacter (world [7])
           ["hero"%string; "orphan"%string]
           sampleCombat_keyed eq_refl).
  - intros _. split; [exists (ofZ 10); reflexivity|discriminate].
  - left. reflexivity.
Defined.



Lemma C7_single_batch_witness :
  ∃ calls,
    [{| documentName := "Combatant";
        entries := [{| _id := "hero"; initiative := 2993;
                       flags_bsh_critInit := None |};
                    {| _id := "ghoul"; initiative := 2000;
                       flags_bsh_critInit := None |}];
        diff := true |}]
    = storeCalls (world [7]) ++ calls
    ∧ (calls = []
       ∨ ∃ us, calls = [{| documentName := "Combatant";
                           entries := us; diff := true |}]
               ∧ us ≠ []
               ∧ _id <$> us
                 = omap (entryId sampleCombat)
                     ["hero"%string; "orphan"%string; "ghoul"%string]
               ∧ Forall flagRecomputed us)
    ∧ (omap (entryId sampleCombat)
         ["hero"%string; "orphan"%string; "ghoul"%string] = [] → calls = [])
    ∧ (calls = [] →
       omap (entryId sampleCombat)
         ["hero"%string; "orphan"%string; "ghoul"%string] = []
       ∨ inr tt = inl DerivationThrew ∨ inr tt = inl RollRejected).
Proof.
  apply (proj1 (C7_single_batch noDerivation acceptAll sampleCombat
                  ["hero"%string; "orphan"%string; "ghoul"%string] (world [7]))
           (inr tt)
           {| pendingRolls := [];
              storeCalls :=
                [{| documentName := "Combatant";
                    entries := [{| _id := "hero"; initiative := 2993;
                                   flags_bsh_critInit := None |};
                                {| _id := "ghoul"; initiative := 2000;
                                   flags_bsh_critInit := None |}];
                    diff := true |}] |}).
  vm_compute. reflexivity.
Defined.

Lemma C8_order_independent_witness :
  submitted (_rollCombatantInitiatives noDerivation acceptAll sampleCombat
               (idsOf [("hero"%string, 7); ("ghoul"%string, 0)])
               (scheduled sampleCombat [("hero"%string, 7); ("ghoul"%string, 0)])).2
  ≡ₚ submitted (_rollCombatantInitiatives noDerivation acceptAll sampleCombat
                  (idsOf [("ghoul"%string, 0); ("hero"%string, 7)])
                  (scheduled sampleCombat
                     [("ghoul"%string, 0); ("hero"%string, 7)])).2.
Proof.
  apply (proj1 (C8_order_independent noDerivation acceptAll sampleCombat
                  [("hero"%string, 7); ("ghoul"%string, 0)]
                  [("ghoul"%string, 0); ("hero"%string, 7)]
                  (perm_swap _ _ _))).
Defined.

Lemma C9_tracker_label_witness :
  initSpan <$> renderCombatTracker sampleTracker sampleRows !! 0%nat
  = Some (Some (if 2000 <? 2995 then "Success"%string else "Failure"%string)).
Proof.
  refine (proj1 (C9_tracker_label sampleTracker _ _ sampleRows 0%nat _
                   "hero"%string rolledHero sampleCharacter "2995"%string
                   eq_refl eq_refl eq_refl eq_refl _ eq_refl eq_refl eq_refl)
            eq_refl 2995 eq_refl).
  discriminate.
Defined.

Lemma C10_unrolled_character_label_witness :
  initiativeLabel heroCombatant
  = (if greaterThan (ofZ 0) (ofZ 2000) then "Success"%string
     else "Failure"%string)
  ∧ initSpan (eachRow (combatants sampleCombat)
                {| dataset_combatantId := Some "hero"%string;
                   initSpan := Some ""%string |})
    = Some "Failure"%string.
Proof.
  refine (proj1 (C10_unrolled_character_label (combatants sampleCombat)
                   {| dataset_combatantId := Some "hero"%string;
                      initSpan := Some ""%string |}
                   "hero"%string heroCombatant ""%string
                   eq_refl _ eq_refl eq_refl)
            eq_refl eq_refl).
  discriminate.
Defined.

(** * Properties of shared.js *)

(** ** Sums and differences where they are exact *)

Lemma exact_spec z : Shared.exact z = true ↔ - 2 ^ 53 ≤ z ≤ 2 ^ 53.
Proof. unfold Shared.exact. rewrite andb_true_iff, !Z.leb_le. tauto. Qed.

Lemma exactSum_known a b :
  Shared.exact a = true → Shared.exact b = true →
  Shared.exact (a + b) = true →
  Shared.exactSum a b = Shared.Known (a + b).
Proof. unfold Shared.exactSum. by intros -> -> ->. Qed.

Lemma exactSum_inv a b total :
  Shared.exactSum a b = Shared.Known total → total = a + b.
Proof.
  unfold Shared.exactSum.
  destruct (_ && _); [by intros [= <-]|discriminate].
Qed.

Lemma exactDifference_known a b :
  Shared.exact a = true → Shared.exact b = true →
  Shared.exact (a - b) = true →
  Shared.exactDifference a b = Shared.Known (a - b).
Proof. unfold Shared.exactDifference. by intros -> -> ->. Qed.

Lemma exactDifference_inv a b total :
  Shared.exactDifference a b = Shared.Known total → total = a - b.
Proof.
  unfold Shared.exactDifference.
  destruct (_ && _); [by intros [= <-]|discriminate].
Qed.

(** ** The usage die path and the roll formulas *)

Lemma downgradeDie_unknown die :
  (∀ d, d ∈ Shared.dieCases → die ≠ JsStr d) → Shared.downgradeDie die = JsNull.
Proof.
  intros Hno. destruct die as [| | | |s|]; try reflexivity.
  unfold Shared.downgradeDie, Shared.strictEqualsString.
  string_cases s; try reflexivity;
    exfalso; (eapply Hno; [|reflexivity]); unfold Shared.dieCases; set_solver.
Qed.

(** X1. The usage die path ends: from any value, seven downgrades give
    [null]; a value is downgraded to [null] exactly when it is none of the
    six dice (so an exhausted die is); and each of the six dice reaches
    "exhausted" within six downgrades. *)
Theorem X1_downgradeDie_path die :
  Nat.iter 7 Shared.downgradeDie die = JsNull
  ∧ (Shared.downgradeDie die = JsNull
     ↔ ∀ d, d ∈ Shared.dieCases → die ≠ JsStr d)
  ∧ (∀ d, d ∈ Shared.dieCases → die = JsStr d →
     ∃ n, (n ≤ 6)%nat
          ∧ Nat.iter n Shared.downgradeDie die = JsStr "exhausted").
Proof.
  split; [|split].
  - destruct die as [| | | |s|]; try reflexivity.
    rewrite !Nat.iter_succ_r. simpl Nat.iter.
    unfold Shared.downgradeDie at 7. unfold Shared.strictEqualsString.
    string_cases s; reflexivity.
  - split; [|apply downgradeDie_unknown].
    intros Hnull d Hd ->. unfold Shared.dieCases in Hd.
    repeat (apply elem_of_cons in Hd as [->|Hd]; [discriminate|]).
    by apply elem_of_nil in Hd.
  - intros d Hd ->. unfold Shared.dieCases in Hd.
    apply elem_of_cons in Hd as [->|Hd]; [exists 1%nat; split; [lia|done]|].
    apply elem_of_cons in Hd as [->|Hd]; [exists 2%nat; split; [lia|done]|].
    apply elem_of_cons in Hd as [->|Hd]; [exists 3%nat; split; [lia|done]|].
    apply elem_of_cons in Hd as [->|Hd]; [exists 4%nat; split; [lia|done]|].
    apply elem_of_cons in Hd as [->|Hd]; [exists 5%nat; split; [lia|done]|].
    apply elem_of_cons in Hd as [->|Hd]; [exists 6%nat; split; [lia|done]|].
    by apply elem_of_nil in Hd.
Qed.

Lemma X1_downgradeDie_path_witness :
  ∃ n, (n ≤ 6)%nat
       ∧ Nat.iter n Shared.downgradeDie (JsStr "d8") = JsStr "exhausted".
Proof.
  apply (proj2 (proj2 (X1_downgradeDie_path (JsStr "d8"))) "d8"%string);
    [unfold Shared.dieCases; set_solver|reflexivity].
Defined.

(** X2. Downgrading loses no information on the dice: two values with the
    same downgrade other than [null] are the same die. *)
Theorem X2_downgradeDie_injective a b :
  Shared.downgradeDie a = Shared.downgradeDie b →
  Shared.downgradeDie a ≠ JsNull →
  a = b.
Proof.
  destruct a as [| | | |s|]; try (intros _ H; by destruct H).
  destruct b as [| | | |t|];
    try (intros H; rewrite H; intros H'; by destruct H').
  unfold Shared.downgradeDie, Shared.strictEqualsString.
  string_cases s; string_cases t; intros H H'; try discriminate H;
    try reflexivity; by destruct H'.
Qed.

Lemma X2_downgradeDie_injective_witness :
  Shared.downgradeDie (JsStr "d10") = Shared.downgradeDie (JsStr "d10")
  ∧ JsStr "d10" = JsStr "d10".
Proof.
  split; [reflexivity|].
  apply (X2_downgradeDie_injective (JsStr "d10") (JsStr "d10"));
    [reflexivity|discriminate].
Defined.

Lemma effective_kind k s :
  s ≠ "standard"%string → s ≠ ""%string →
  Shared.strictEqualsString (if truthy k then k else JsStr "standard") s
  = Shared.strictEqualsString k s.
Proof.
  intros Hs He. destruct (truthy k) eqn:Ht; [reflexivity|].
  assert (Shared.strictEqualsString (JsStr "standard") s = false) as ->.
  { unfold Shared.strictEqualsString. apply String.eqb_neq. congruence. }
  destruct k as [| |b|n|t|]; try reflexivity.
  unfold truthy in Ht. apply negb_false_iff, String.eqb_eq in Ht as ->.
  unfold Shared.strictEqualsString. symmetry. apply String.eqb_neq. congruence.
Qed.

Lemma generateDieRollFormula_unfold options :
  Shared.generateDieRollFormula options =
  let k := Shared.kind options in
  let formula :=
    match (if truthy (Shared.dieType options)
           then Shared.dieType options else JsStr "d20") with
    | JsStr d => if String.eqb d "one" then Some "1"%string
                 else if Shared.isDieCase d then Some d else None
    | _ => None
    end in
  if Shared.isNotOne formula
  then Some (dieRollText k (Shared.substitute formula))
  else if Shared.strictEqualsString k "advantage" then Some "2"%string
       else formula.
Proof.
  unfold Shared.generateDieRollFormula, dieRollText. cbv zeta.
  rewrite !effective_kind by discriminate.
  destruct (Shared.strictEqualsString (Shared.kind options) "advantage");
    [by destruct (Shared.isNotOne _)|].
  destruct (Shared.strictEqualsString (Shared.kind options) "disadvantage");
    by destruct (Shared.isNotOne _).
Qed.

(** X3. [generateDieRollFormula] never returns [null], although its result
    starts as [null]: a die type that is truthy but matches no [case] of the
    [switch] leaves the text "null" in the formula ("1null", "2nullkl" or
    "2nullkh" by kind). *)
Theorem X3_generateDieRollFormula_never_null options :
  is_Some (Shared.generateDieRollFormula options)
  ∧ (truthy (Shared.dieType options) = true →
     (∀ d, Shared.dieType options = JsStr d →
           d ≠ "one"%string ∧ Shared.isDieCase d = false) →
     Shared.generateDieRollFormula options
     = Some (dieRollText (Shared.kind options) "null")).
Proof.
  rewrite generateDieRollFormula_unfold. cbv zeta. split.
  - destruct (match (if truthy (Shared.dieType options)
                     then Shared.dieType options else JsStr "d20") with
              | JsStr d => _
              | _ => None
              end) as [f|]; [|done].
    destruct (Shared.isNotOne (Some f)); [done|].
    by destruct (Shared.strictEqualsString _ _).
  - intros Ht Hno. rewrite Ht.
    destruct (Shared.dieType options) as [| | | |d|]; try reflexivity.
    destruct (Hno d eq_refl) as [Hone Hcase].
    apply String.eqb_neq in Hone. by rewrite Hone, Hcase.
Qed.

Lemma X3_generateDieRollFormula_never_null_witness :
  Shared.generateDieRollFormula
    {| Shared.dieType := JsStr "d100"; Shared.kind := JsStr "advantage" |}
  = Some (dieRollText (JsStr "advantage") "null").
Proof.
  apply (proj2 (X3_generateDieRollFormula_never_null
                  {| Shared.dieType := JsStr "d100";
                     Shared.kind := JsStr "advantage" |}) eq_refl).
  intros d [= <-]. split; [discriminate|reflexivity].
Defined.

Lemma isDieCase_spec d :
  Shared.isDieCase d = true →
  String.eqb d "one" = false ∧ String.eqb d "1" = false
  ∧ String.eqb d "" = false.
Proof.
  unfold Shared.isDieCase, Shared.dieCases. simpl.
  string_cases d; try discriminate; done.
Qed.

(** X4. For each of the six dice the formula is "1dN" for a standard roll,
    "2dNkl" with advantage and "2dNkh" with disadvantage; a kind that is
    missing or unknown is a standard roll and a missing die type is a d20.
    The fixed value "one" gives "1", or "2" with advantage. *)
Theorem X4_generateDieRollFormula_table options :
  (∀ d, Shared.dieType options = JsStr d → Shared.isDieCase d = true →
     Shared.generateDieRollFormula options
     = Some (dieRollText (Shared.kind options) d))
  ∧ (truthy (Shared.dieType options) = false →
     Shared.generateDieRollFormula options
     = Some (dieRollText (Shared.kind options) "d20"))
  ∧ (Shared.dieType options = JsStr "one" →
     Shared.generateDieRollFormula options
     = Some (if Shared.strictEqualsString (Shared.kind options) "advantage"
             then "2"%string else "1"%string)).
Proof.
  rewrite generateDieRollFormula_unfold. cbv zeta. repeat split.
  - intros d Hd Hcase. rewrite Hd.
    destruct (isDieCase_spec d Hcase) as (Hone & H1 & Hempty).
    simpl truthy. rewrite Hempty. simpl negb. cbv iota.
    rewrite Hone, Hcase. simpl. by rewrite H1.
  - intros Ht. rewrite Ht. reflexivity.
  - intros Hd. rewrite Hd. simpl.
    by destruct (Shared.strictEqualsString _ _).
Qed.

Lemma X4_generateDieRollFormula_table_witness :
  Shared.generateDieRollFormula
    {| Shared.dieType := JsStr "d8"; Shared.kind := JsStr "disadvantage" |}
  = Some (dieRollText (JsStr "disadvantage") "d8").
Proof.
  apply (proj1 (X4_generateDieRollFormula_table
                  {| Shared.dieType := JsStr "d8";
                     Shared.kind := JsStr "disadvantage" |})
           "d8"%string eq_refl eq_refl).
Defined.

(** X5. The damage formula for a die "dN" (the unarmed die for an unarmed
    weapon, the armed die otherwise): being doomed and wielding with more
    than one hand cancel out, giving "1dN" like neither; doomed alone keeps
    the lowest of two dice, two hands alone the highest; and a critical
    appends "+N", the highest face of the die. *)
Theorem X5_generateDamageRollFormula_table damageDice weapon options n :
  let die := if Shared.strictEqualsString (Shared.w_type weapon) "unarmed"
             then Shared.unarmed damageDice else Shared.armed damageDice in
  let twoHands := greaterThan (Shared.hands weapon) (ofZ 1) in
  let isDoomed := truthy (Shared.doomed options) in
  let base := if xorb twoHands isDoomed
              then (if isDoomed then "2" +:+ die +:+ "kl"
                    else "2" +:+ die +:+ "kh")
              else "1" +:+ die in
  die = String "d" n →
  Shared.generateDamageRollFormula damageDice weapon options
  = if truthy (Shared.critical options) then base +:+ "+" +:+ n else base.
Proof.
  intros die twoHands isDoomed base Hdie.
  unfold Shared.generateDamageRollFormula.
  destruct (Shared.strictEqualsString (Shared.w_type weapon) "unarmed");
    simpl negb; cbv iota; subst base twoHands isDoomed die; rewrite Hdie;
    destruct (truthy (Shared.doomed options)),
             (greaterThan (Shared.hands weapon) (ofZ 1)),
             (truthy (Shared.critical options)); reflexivity.
Qed.

Lemma X5_generateDamageRollFormula_table_witness :
  Shared.generateDamageRollFormula
    {| Shared.armed := "d8"; Shared.unarmed := "d4" |}
    {| Shared.w_type := JsStr "melee"; Shared.hands := ofZ 2 |}
    {| Shared.critical := JsBool true; Shared.doomed := JsBool true |}
  = "1d8+8"%string.
Proof.
  apply (X5_generateDamageRollFormula_table
           {| Shared.armed := "d8"; Shared.unarmed := "d4" |}
           {| Shared.w_type := JsStr "melee"; Shared.hands := ofZ 2 |}
           {| Shared.critical := JsBool true; Shared.doomed := JsBool true |}
           "8"%string eq_refl).
Defined.

(** ** Object paths *)

Lemma splitOn_nonempty sep s : Shared.splitOn sep s ≠ [].
Proof.
  destruct s as [|a s]; simpl; [discriminate|].
  destruct (Ascii.eqb a sep); [discriminate|].
  destruct (Shared.splitOn sep s); discriminate.
Qed.

Lemma splitOn_step sep k rest :
  Shared.splitOn sep k = [k] →
  Shared.splitOn sep (k +:+ String sep rest) = k :: Shared.splitOn sep rest.
Proof.
  revert rest. induction k as [|a k IH]; intros rest Hk; simpl.
  - by rewrite Ascii.eqb_refl.
  - simpl in Hk. destruct (Ascii.eqb a sep); [discriminate|].
    destruct (Shared.splitOn sep k) as [|first others] eqn:Hsplit.
    + by destruct (splitOn_nonempty sep k).
    + injection Hk as -> ->. by rewrite IH.
Qed.

Lemma descend_falsy steps c :
  truthy c = false → fold_left Shared.descend steps (Shared.Known c)
                     = Shared.Known c.
Proof.
  intros Hc. induction steps as [|field steps IH]; [reflexivity|].
  simpl. by rewrite Hc.
Qed.

Lemma assignPath_last field value props :
  Shared.assignPath [field] value (JsObj props)
  = if String.eqb field "__proto__"
       && negb (bool_decide (is_Some (props !! field)))
    then Shared.Unmodelled
    else Shared.Known (JsObj (<[field := value]> props)).
Proof. reflexivity. Qed.

Lemma assignPath_more field field' rest value props :
  Shared.assignPath (field :: field' :: rest) value (JsObj props)
  = match Shared.readField (JsObj props) field with
    | Shared.Unmodelled => Shared.Unmodelled
    | Shared.Known v =>
        match Shared.assignPath (field' :: rest) value
                (if negb (truthy v) then JsObj ∅ else v) with
        | Shared.Unmodelled => Shared.Unmodelled
        | Shared.Known next' => Shared.Known (JsObj (<[field := next']> props))
        end
    end.
Proof. reflexivity. Qed.

Lemma assignPath_object steps value c root :
  Shared.assignPath steps value c = Shared.Known root →
  ∃ props props', c = JsObj props ∧ root = JsObj props'.
Proof.
  destruct c as [| | | | |props]; try (destruct steps; discriminate).
  intros H. exists props. destruct steps as [|field [|field' rest]].
  - injection H as <-. eauto.
  - rewrite assignPath_last in H.
    destruct (_ && _); [discriminate|]. injection H as <-. eauto.
  - rewrite assignPath_more in H.
    destruct (Shared.readField (JsObj props) field); [|discriminate].
    destruct (Shared.assignPath (field' :: rest) value _); [|discriminate].
    injection H as <-. eauto.
Qed.

Lemma descend_insert props field v :
  Shared.descend (Shared.Known (JsObj (<[field := v]> props))) field
  = Shared.Known (readBack v).
Proof.
  unfold Shared.descend, Shared.readField. cbn [truthy].
  rewrite lookup_insert_eq. by destruct v.
Qed.

Lemma assignPath_read_back steps value c root :
  steps ≠ [] →
  Shared.assignPath steps value c = Shared.Known root →
  fold_left Shared.descend steps (Shared.Known root)
  = Shared.Known (readBack value).
Proof.
  revert c root. induction steps as [|field steps IH]; intros c root Hne H;
    [done|].
  destruct (assignPath_object _ _ _ _ H) as (props & props' & -> & Hroot).
  destruct steps as [|field' rest].
  - rewrite assignPath_last in H.
    destruct (_ && _); [discriminate|]. injection H as <-.
    cbn [fold_left]. apply descend_insert.
  - rewrite assignPath_more in H.
    destruct (Shared.readField (JsObj props) field) as [v|]; [|discriminate].
    destruct (Shared.assignPath (field' :: rest) value _) as [next'|] eqn:Hn;
      [|discriminate].
    injection H as <-.
    destruct (assignPath_object _ _ _ _ Hn) as (? & pn & _ & ->).
    change (fold_left Shared.descend (field :: field' :: rest) ?x)
      with (fold_left Shared.descend (field' :: rest) (Shared.descend x field)).
    rewrite descend_insert. eapply IH; [discriminate|exact Hn].
Qed.

Lemma assignPath_fresh steps value :
  Forall (λ field, Shared.inherited field = false) steps →
  ∃ root, Shared.assignPath steps value (JsObj ∅) = Shared.Known root.
Proof.
  induction steps as [|field steps IH]; intros Hplain; [simpl; eauto|].
  apply Forall_cons in Hplain as [Hfield Hplain].
  destruct steps as [|field' rest].
  - rewrite assignPath_last.
    destruct (String.eqb_spec field "__proto__") as [->|_]; [discriminate|].
    simpl. eauto.
  - destruct (IH Hplain) as [next' Hn].
    rewrite assignPath_more. cbn [Shared.readField].
    rewrite lookup_empty, Hfield. cbn [truthy negb]. rewrite Hn. eauto.
Qed.

Lemma getObjectField_setObjectField path value object root :
  Shared.setObjectField path value object = Shared.Known root →
  Shared.getObjectField path root = Shared.Known (readBack value).
Proof.
  intros H. unfold Shared.setObjectField in H.
  destruct (assignPath_object _ _ _ _ H) as (? & props' & _ & ->).
  unfold Shared.getObjectField. cbn [truthy].
  eapply assignPath_read_back; [apply splitOn_nonempty|exact H].
Qed.

Lemma setObjectField_fresh path value object :
  truthy object = false →
  Forall (λ field, Shared.inherited field = false) (Shared.splitOn "." path) →
  ∃ root, Shared.setObjectField path value object = Shared.Known root.
Proof.
  intros Hfalsy Hplain. unfold Shared.setObjectField. rewrite Hfalsy.
  by apply assignPath_fresh.
Qed.

(** X6. A value stored with [setObjectField] is read back by
    [getObjectField] at the same path ([undefined] reads back as [null]),
    whatever object it was stored into; and storing into a new object
    succeeds for every path whose steps are not names of
    [Object.prototype]. *)
Theorem X6_object_path_round_trip path value object :
  (∀ root, Shared.setObjectField path value object = Shared.Known root →
           Shared.getObjectField path root = Shared.Known (readBack value))
  ∧ (truthy object = false →
     Forall (λ field, Shared.inherited field = false)
            (Shared.splitOn "." path) →
     ∃ root, Shared.setObjectField path value object = Shared.Known root).
Proof.
  split.
  - intros root. apply getObjectField_setObjectField.
  - apply setObjectField_fresh.
Qed.

Lemma X6_object_path_round_trip_witness :
  Shared.getObjectField "system.usageDie.current"
    (JsObj {[ "system"%string :=
                JsObj {[ "usageDie"%string :=
                           JsObj {[ "current"%string := JsStr "d6" ]} ]} ]})
  = Shared.Known (readBack (JsStr "d6")).
Proof.
  apply (proj1 (X6_object_path_round_trip "system.usageDie.current"
                  (JsStr "d6") JsNull)).
  vm_compute. reflexivity.
Defined.

Lemma descend_object props field :
  Shared.descend (Shared.Known (JsObj props)) field
  = match props !! field with
    | Some v => Shared.Known (readBack v)
    | None => if Shared.inherited field then Shared.Unmodelled
              else Shared.Known JsNull
    end.
Proof.
  unfold Shared.descend, Shared.readField. cbn [truthy].
  destruct (props !! field) as [v|]; [by destruct v|].
  by destruct (Shared.inherited field).
Qed.

(** X7. [getObjectField] stops at the first step that does not lead on.  A
    falsy value met before the end of the path is itself the result (0, the
    empty string or [false] are returned, not [null]), and a step that is
    missing gives [null]; the rest of the path is not looked at. *)
Theorem X7_getObjectField_stops_early props k rest :
  Shared.splitOn "." k = [k] →
  (∀ v, props !! k = Some v → truthy v = false →
        Shared.getObjectField (k +:+ "." +:+ rest) (JsObj props)
        = Shared.Known (readBack v))
  ∧ (props !! k = None → Shared.inherited k = false →
     Shared.getObjectField (k +:+ "." +:+ rest) (JsObj props)
     = Shared.Known JsNull).
Proof.
  intros Hk.
  assert (Hsplit : Shared.splitOn "." (k +:+ "." +:+ rest)
                   = k :: Shared.splitOn "." rest)
    by (apply (splitOn_step "." k rest Hk)).
  unfold Shared.getObjectField. cbn [truthy]. rewrite Hsplit.
  cbn [fold_left]. rewrite descend_object. split.
  - intros v Hv Hfalsy. rewrite Hv.
    apply descend_falsy. by destruct v.
  - intros Hnone Hplain. rewrite Hnone, Hplain.
    by apply descend_falsy.
Qed.

Lemma X7_getObjectField_stops_early_witness :
  Shared.getObjectField ("quantity" +:+ "." +:+ "spare")
    (JsObj {[ "quantity"%string := JsNum (ofZ 0) ]})
  = Shared.Known (readBack (JsNum (ofZ 0))).
Proof.
  apply (proj1 (X7_getObjectField_stops_early
                  {[ "quantity"%string := JsNum (ofZ 0) ]}
                  "quantity" "spare" eq_refl) (JsNum (ofZ 0)));
    reflexivity.
Defined.

(** X8. [setObjectField] on an object leaves every top-level property other
    than the first step of the path as it was. *)
Theorem X8_setObjectField_frame path value props root :
  Shared.setObjectField path value (JsObj props) = Shared.Known root →
  ∃ props', root = JsObj props'
            ∧ ∀ k, head (Shared.splitOn "." path) ≠ Some k →
                   props' !! k = props !! k.
Proof.
  unfold Shared.setObjectField. cbn [truthy].
  destruct (Shared.splitOn "." path) as [|field [|field' rest]] eqn:Hsplit.
  - by destruct (splitOn_nonempty "." path).
  - rewrite assignPath_last. destruct (_ && _); [discriminate|].
    intros [= <-]. eexists. split; [reflexivity|].
    intros k Hk. apply lookup_insert_ne. simpl in Hk. congruence.
  - rewrite assignPath_more.
    destruct (Shared.readField (JsObj props) field); [|discriminate].
    destruct (Shared.assignPath (field' :: rest) value _); [|discriminate].
    intros [= <-]. eexists. split; [reflexivity|].
    intros k Hk. apply lookup_insert_ne. simpl in Hk. congruence.
Qed.

Lemma X8_setObjectField_frame_witness :
  ∃ props',
    JsObj {[ "quantity"%string := JsNum (ofZ 2);
             "name"%string := JsStr "Torch" ]}
    = JsObj props'
    ∧ ∀ k, head (Shared.splitOn "." "quantity") ≠ Some k →
           props' !! k
           = ({[ "quantity"%string := JsNum (ofZ 3);
                 "name"%string := JsStr "Torch" ]} : gmap string JsValue) !! k.
Proof.
  apply (X8_setObjectField_frame "quantity" (JsNum (ofZ 2))
           {[ "quantity"%string := JsNum (ofZ 3);
              "name"%string := JsStr "Torch" ]}).
  vm_compute. reflexivity.
Defined.

(** ** Level and hit points *)

Lemma countStory_comm j1 j2 z1 z2 y :
  Shared.countStory j1 z1 (Shared.countStory j2 z2 y)
  = Shared.countStory j2 z2 (Shared.countStory j1 z1 y).
Proof.
  unfold Shared.countStory.
  destruct y as [n|], (Shared.titled z1) as [[|]|],
           (Shared.titled z2) as [[|]|]; reflexivity.
Qed.

Lemma calculateLevel_insert data m k story :
  m !! k = None →
  Shared.calculateLevel (withStories data (<[k := story]> m))
  = match Shared.calculateLevel (withStories data m), Shared.titled story with
    | Some level, Some true => Some (level + 1)
    | Some level, Some false => Some level
    | _, _ => None
    end.
Proof.
  intros Hk. unfold Shared.calculateLevel, withStories. cbn [stories].
  rewrite map_fold_insert_L by (auto using countStory_comm).
  unfold Shared.countStory at 1.
  destruct (map_fold Shared.countStory (Some 0) m) as [n|];
    destruct (Shared.titled story) as [[|]|]; reflexivity.
Qed.

Lemma calculateLevel_bounds data m level :
  Shared.calculateLevel (withStories data m) = Some level →
  1 ≤ level ≤ 1 + Z.of_nat (size m).
Proof.
  revert level. induction m as [|k story m Hk IH] using map_ind;
    intros level H.
  - injection H as <-. rewrite map_size_empty. vm_compute. split; discriminate.
  - rewrite (calculateLevel_insert _ _ _ _ Hk) in H.
    rewrite (map_size_insert_None _ _ _ Hk).
    destruct (Shared.calculateLevel (withStories data m)) as [l|];
      [|discriminate].
    specialize (IH l eq_refl).
    destruct (Shared.titled story) as [[|]|]; [| |discriminate];
      injection H as <-; lia.
Qed.

(** X9. The level is one more than the number of stories that count: with
    no story it is 1; a further story whose title is a string with a
    character that is not white space raises it by one; a story without
    title, or with a title that is empty or all white space, leaves it as
    it is; and a story that is null or undefined, or whose title is truthy
    without being a string, makes the computation throw, as do stories that
    are null or undefined as a whole.  So the level, when there is one, lies
    between 1 and the number of stories plus 1. *)
Theorem X9_calculateLevel_counts data :
  Shared.calculateLevel (withStories data ∅) = Some 1
  ∧ (∀ m k story,
       m !! k = None →
       Shared.calculateLevel (withStories data (<[k := story]> m))
       = match Shared.calculateLevel (withStories data m),
               Shared.titled story with
         | Some level, Some true => Some (level + 1)
         | Some level, Some false => Some level
         | _, _ => None
         end)
  ∧ (∀ m level,
       Shared.calculateLevel (withStories data m) = Some level →
       1 ≤ level ≤ 1 + Z.of_nat (size m))
  ∧ (∀ props t,
       props !! "title"%string = Some (JsStr t) →
       Shared.titled (JsObj props) = Some (negb (Shared.blank t)))
  ∧ (∀ props,
       props !! "title"%string = None →
       Shared.titled (JsObj props) = Some false)
  ∧ Shared.titled JsNull = None
  ∧ Shared.titled JsUndefined = None
  ∧ (∀ props title,
       props !! "title"%string = Some title →
       truthy title = true → (∀ t, title ≠ JsStr t) →
       Shared.titled (JsObj props) = None)
  ∧ (∀ m k story,
       m !! k = None →
       story = JsNull ∨ story = JsUndefined
       ∨ (∃ props title,
            story = JsObj props ∧ props !! "title"%string = Some title
            ∧ truthy title = true ∧ ∀ t, title ≠ JsStr t) →
       Shared.calculateLevel (withStories data (<[k := story]> m)) = None)
  ∧ Shared.calculateLevel
      {| calculated := calculated data; attributes := attributes data;
         backgrounds := backgrounds data; stories := JsNull |} = None
  ∧ Shared.calculateLevel
      {| calculated := calculated data; attributes := attributes data;
         backgrounds := backgrounds data; stories := JsUndefined |} = None.
Proof.
  assert (Hthrows : ∀ props title,
            props !! "title"%string = Some title →
            truthy title = true → (∀ t, title ≠ JsStr t) →
            Shared.titled (JsObj props) = None).
  { intros props title Ht Htruthy Hstr. unfold Shared.titled.
    rewrite Ht. cbn [default from_option id]. rewrite Htruthy.
    destruct title; try reflexivity. by destruct (Hstr s). }
  split; [reflexivity|]. split; [apply calculateLevel_insert|].
  split; [apply calculateLevel_bounds|].
  split; [|split; [|split; [reflexivity|split; [reflexivity|
    split; [exact Hthrows|split; [|split; reflexivity]]]]]].
  - intros props t Ht. unfold Shared.titled. rewrite Ht. cbn [default truthy].
    destruct t as [|a t]; reflexivity.
  - intros props Ht. unfold Shared.titled. by rewrite Ht.
  - intros m k story Hk Hstory.
    rewrite (calculateLevel_insert _ _ _ _ Hk).
    assert (Shared.titled story = None) as ->.
    { destruct Hstory as [->|[->|(props & title & -> & Ht & Htruthy & Hstr)]];
        [reflexivity|reflexivity|by apply (Hthrows props title)]. }
    by destruct (Shared.calculateLevel (withStories data m)).
Qed.

Lemma X9_calculateLevel_counts_witness :
  Shared.calculateLevel
    (withStories (a_system sampleCharacter)
       (<["2" := JsObj {[ "title"%string := JsStr "   " ]}]>
          {[ "1"%string := JsObj {[ "title"%string := JsStr "The Tower" ]} ]}))
  = match Shared.calculateLevel
            (withStories (a_system sampleCharacter)
               {[ "1"%string := JsObj {[ "title"%string := JsStr "The Tower" ]} ]}),
          Shared.titled (JsObj {[ "title"%string := JsStr "   " ]}) with
    | Some level, Some true => Some (level + 1)
    | Some level, Some false => Some level
    | _, _ => None
    end.
Proof.
  apply (proj1 (proj2 (X9_calculateLevel_counts (a_system sampleCharacter)))).
  reflexivity.
Defined.

(** X10. Hit points grow by one per level up to level 10 and not beyond.
    For a constitution that is an integer from -2^53 to 2^53 - 9, where all
    the sums are exact: from level 1 on the hit points are the constitution
    plus the smaller of the level and 10, minus 1; they never decrease when
    the level rises; and for a level computed by [calculateLevel] they lie
    between the constitution and the constitution plus 9. *)
Theorem X10_calculateMaximumHitPoints_capped constitution :
  - 2 ^ 53 ≤ constitution ≤ 2 ^ 53 - 9 →
  (∀ level, 1 ≤ level →
     Shared.calculateMaximumHitPoints constitution level
     = Shared.Known (constitution + Z.min level 10 - 1))
  ∧ (∀ l1 l2 h1 h2, l1 ≤ l2 →
       Shared.calculateMaximumHitPoints constitution l1 = Shared.Known h1 →
       Shared.calculateMaximumHitPoints constitution l2 = Shared.Known h2 →
       h1 ≤ h2)
  ∧ (∀ data m level,
       Shared.calculateLevel (withStories data m) = Some level →
       ∃ total,
         Shared.calculateMaximumHitPoints constitution level
         = Shared.Known total
         ∧ constitution ≤ total ≤ constitution + 9).
Proof.
  intros Hc.
  assert (Hfrom1 : ∀ level, 1 ≤ level →
            Shared.calculateMaximumHitPoints constitution level
            = Shared.Known (constitution + Z.min level 10 - 1)).
  { intros level H. unfold Shared.calculateMaximumHitPoints.
    destruct (Z.ltb_spec level 10).
    - rewrite exactDifference_known by (rewrite ?exact_spec; lia).
      rewrite exactSum_known by (rewrite ?exact_spec; lia).
      f_equal. lia.
    - rewrite exactSum_known by (rewrite ?exact_spec; lia).
      f_equal. lia. }
  assert (Hvalue : ∀ level total,
            Shared.calculateMaximumHitPoints constitution level
            = Shared.Known total →
            total = constitution + (if level <? 10 then level - 1 else 9)).
  { intros level total. unfold Shared.calculateMaximumHitPoints.
    destruct (level <? 10).
    - destruct (Shared.exactDifference level 1) as [gained|] eqn:Hd;
        [|discriminate].
      apply exactDifference_inv in Hd as ->.
      intros H. by apply exactSum_inv in H.
    - intros H. by apply exactSum_inv in H. }
  split; [exact Hfrom1|split].
  - intros l1 l2 h1 h2 H H1 H2.
    apply Hvalue in H1, H2. subst h1 h2.
    destruct (Z.ltb_spec l1 10), (Z.ltb_spec l2 10); lia.
  - intros data m level H.
    apply calculateLevel_bounds in H. eexists.
    split; [apply Hfrom1; lia|lia].
Qed.

Lemma X10_calculateMaximumHitPoints_capped_witness :
  Shared.calculateMaximumHitPoints 12 14 = Shared.Known (12 + Z.min 14 10 - 1).
Proof.
  apply (proj1 (X10_calculateMaximumHitPoints_capped 12 ltac:(lia)) 14). lia.
Defined.

Lemma append_empty_r (s : string) : String.append s EmptyString = s.
Proof.
  induction s as [|a s IH]; [reflexivity|].
  change (String a (String.append s EmptyString) = String a s).
  f_equal. exact IH.
Qed.

Lemma hasDice_refl formula : hasDice formula formula.
Proof. exists EmptyString. symmetry. apply append_empty_r. Qed.

(** X11. A doomed character never rolls a d20 test with advantage: in the
    initiative, perception, dodge, parry, attribute and attack rolls its
    dice are "1d20" or "2d20kh", never "2d20kl", whatever keys are held. *)
Theorem X11_doomed_never_advantage doom shiftKey ctrlKey rollEm :
  ChatMessages.isDoomed doom = true →
  let allowed formula := hasDice formula "1d20" ∨ hasDice formula "2d20kh" in
  (∀ wisdom,
     allowed (ChatMessages.rolled
                (ChatMessages.logInitiativeRoll doom shiftKey ctrlKey wisdom
                   rollEm)))
  ∧ (∀ intelligence,
       allowed (ChatMessages.rolled
                  (ChatMessages.logPerceptionRoll doom shiftKey ctrlKey
                     intelligence rollEm)))
  ∧ (∀ shield dexterity,
       allowed (ChatMessages.rolled
                  (ChatMessages.logDodgeRoll doom shield shiftKey ctrlKey
                     dexterity rollEm)))
  ∧ (∀ shield strength,
       allowed (ChatMessages.rolled
                  (ChatMessages.logParryRoll doom shield shiftKey ctrlKey
                     strength rollEm)))
  ∧ (∀ tested adjustment,
       allowed (ChatMessages.rolled
                  (ChatMessages.logAttributeTest doom tested shiftKey ctrlKey
                     adjustment rollEm)))
  ∧ (∀ actorType pcLevel targets strength dexterity damageDice weapon,
       allowed (ChatMessages.rolled
                  (ChatMessages.attack
                     (ChatMessages.logAttackRoll actorType pcLevel targets
                        doom strength dexterity damageDice weapon
                        shiftKey ctrlKey rollEm)))).
Proof.
  intros Hdoom allowed. subst allowed. cbv beta.
  repeat split; intros.
  - unfold ChatMessages.logInitiativeRoll, ChatMessages.totalAgainst.
    rewrite Hdoom. destruct (ChatMessages.labelled _ _ _ _).
    destruct shiftKey; [left|right]; apply hasDice_refl.
  - unfold ChatMessages.logPerceptionRoll, ChatMessages.totalAgainst.
    rewrite Hdoom. destruct (ChatMessages.labelled _ _ _ _).
    destruct shiftKey; [left|right]; apply hasDice_refl.
  - unfold ChatMessages.logDodgeRoll, ChatMessages.totalAgainst.
    rewrite Hdoom. destruct (ChatMessages.labelled _ _ _ _).
    destruct (shiftKey || _); [left|right]; apply hasDice_refl.
  - unfold ChatMessages.logParryRoll, ChatMessages.totalAgainst.
    rewrite Hdoom. destruct (ChatMessages.labelled _ _ _ _).
    destruct (shiftKey || _); [left|right]; apply hasDice_refl.
  - unfold ChatMessages.logAttributeTest. rewrite Hdoom. cbv zeta.
    match goal with |- context [ChatMessages.rolled (let '(_, _) := ?x in _)] =>
      destruct x end.
    cbn [ChatMessages.rolled negb].
    destruct shiftKey; [left|right; destruct ctrlKey];
      destruct (adjustment <? 0), (0 <? adjustment); eexists; reflexivity.
  - unfold ChatMessages.logAttackRoll. rewrite Hdoom. cbv zeta.
    match goal with |- context [ChatMessages.attack
                                  (let '(_, _) := ?x in _)] =>
      destruct x end.
    cbn [ChatMessages.attack ChatMessages.rolled negb].
    destruct shiftKey; [left|right; destruct ctrlKey];
      destruct (0 <? ChatMessages.threatBonus _ _ _); eexists; reflexivity.
Qed.

Lemma X11_doomed_never_advantage_witness :
  hasDice (ChatMessages.rolled
             (ChatMessages.logAttributeTest (JsStr "exhausted") (ofZ 12)
                true false (-2)
                (λ formula, {| ChatMessages.total := 9;
                               ChatMessages.r_formula := formula;
                               ChatMessages.firstResult := JsNum (ofZ 11) |})))
    "1d20"
  ∨ hasDice (ChatMessages.rolled
               (ChatMessages.logAttributeTest (JsStr "exhausted") (ofZ 12)
                  true false (-2)
                  (λ formula, {| ChatMessages.total := 9;
                                 ChatMessages.r_formula := formula;
                                 ChatMessages.firstResult := JsNum (ofZ 11) |})))
       "2d20kh".
Proof.
  apply (proj1 (proj2 (proj2 (proj2 (proj2
           (X11_doomed_never_advantage (JsStr "exhausted") true false
              (λ formula, {| ChatMessages.total := 9;
                             ChatMessages.r_formula := formula;
                             ChatMessages.firstResult := JsNum (ofZ 11) |})
              eq_refl)))))
         (ofZ 12) (-2)).
Defined.

Lemma totalAgainst_success formula tested blurb roll :
  ChatMessages.success (ChatMessages.totalAgainst formula tested blurb roll)
  = Some ((ChatMessages.total roll =? 1)
          || lessThan (ofZ (ChatMessages.total roll)) tested).
Proof.
  unfold ChatMessages.totalAgainst.
  by destruct (ChatMessages.labelled _ _ _ _).
Qed.

Lemma totalAgainst_label formula tested blurb roll :
  ChatMessages.label (ChatMessages.totalAgainst formula tested blurb roll)
  = Some (ChatMessages.labelled
            (ChatMessages.total roll =? 1) (ChatMessages.total roll =? 20)
            ((ChatMessages.total roll =? 1)
             || lessThan (ofZ (ChatMessages.total roll)) tested) blurb).1.
Proof.
  unfold ChatMessages.totalAgainst.
  by destruct (ChatMessages.labelled _ _ _ _).
Qed.

Lemma totalAgainst_rolled formula tested blurb roll :
  ChatMessages.rolled (ChatMessages.totalAgainst formula tested blurb roll)
  = formula.
Proof.
  unfold ChatMessages.totalAgainst.
  by destruct (ChatMessages.labelled _ _ _ _).
Qed.

(** X12. The initiative card of the chat and the combat tracker classify
    a die alike where they test it against the same wisdom.  The card reads
    the wisdom that [calculateAttributeValues] derives; the tracker reads
    the cached attributes first and puts 10 for a wisdom that is not of type
    number.  So take a character whose derived wisdom is a number, with no
    cached attributes or with that same wisdom cached, and a die from 1 to
    20 that is not a 20 under a wisdom above 20 (which the card counts as a
    success): the card reports a success exactly when the entry of the
    tracker ranks above 2000, and labels a critical success or failure
    exactly when the entry carries that flag. *)
Theorem X12_initiative_card_agrees_with_tracker
    derive this cid c a obj wisdom updates w total rest
    doom (shiftKey ctrlKey : bool) rollEm :
  resolves this cid = Some (c, a) →
  a_type a = "character"%string →
  derive (a_system a) = Some obj →
  obj !! "wisdom"%string = Some (JsNum wisdom) →
  truthy (calculated (a_system a)) = false
  ∨ dotWisdom (calculated (a_system a)) = JsNum wisdom →
  pendingRolls w = total :: rest →
  1 ≤ total ≤ 20 →
  (total = 20 → lessThan (ofZ 20) wisdom = false) →
  let card := ChatMessages.logInitiativeRoll doom shiftKey ctrlKey wisdom
                rollEm in
  ChatMessages.total (rollEm (ChatMessages.rolled card)) = total →
  ∃ entry,
    iteration derive this cid updates w
    = (inr (updates ++ [entry]),
       {| pendingRolls := rest; storeCalls := storeCalls w |})
    ∧ ChatMessages.success card = Some (2000 <? initiative entry)
    ∧ (ChatMessages.label card
       = Some "bsh.messages.labels.criticalSuccess"%string
       ↔ flags_bsh_critInit entry = Some critSuccess)
    ∧ (ChatMessages.label card
       = Some "bsh.messages.labels.criticalFailure"%string
       ↔ flags_bsh_critInit entry = Some critFailure).
Proof.
  intros Hres Hty Hobj Hwisdom Hcache Hrolls Hdie H20 card Htotal.
  assert (Hwis : characterWisdom derive (a_system a) = inr wisdom).
  { unfold characterWisdom.
    destruct (truthy (calculated (a_system a))) eqn:Ht; cbn [negb].
    - destruct Hcache as [Hc|Hc]; [discriminate|by rewrite Hc].
    - rewrite Hobj. unfold dotWisdom. by rewrite Hwisdom. }
  exists (queued c (characterOutcome wisdom total)). split.
  { by rewrite (iteration_character _ _ _ _ _ _ _ Hres Hty), Hwis, Hrolls. }
  subst card. revert Htotal. unfold ChatMessages.logInitiativeRoll.
  rewrite totalAgainst_rolled, totalAgainst_success, totalAgainst_label.
  intros ->. unfold queued, characterOutcome, ChatMessages.labelled.
  destruct (Z.eqb_spec total 1) as [->|H1]; [by repeat split|].
  destruct (Z.eqb_spec total 20) as [->|Ht].
  - rewrite (H20 eq_refl). by repeat split.
  - cbn [orb negb andb].
    destruct (lessThan (ofZ total) wisdom);
      cbn [initiative flags_bsh_critInit initiativeValue critFlag];
      (split; [f_equal; symmetry; first [apply Z.ltb_lt | apply Z.ltb_ge]; lia
              |by split]).
Qed.

Lemma X12_initiative_card_agrees_with_tracker_witness :
  ∃ entry,
    iteration (derivedAs sampleCalculated) uncachedCombat "hero" []
      {| pendingRolls := [7]; storeCalls := [] |}
    = (inr ([] ++ [entry]), {| pendingRolls := []; storeCalls := [] |})
    ∧ ChatMessages.success
        (ChatMessages.logInitiativeRoll JsUndefined false false (ofZ 18)
           alwaysSeven)
      = Some (2000 <? initiative entry)
    ∧ (ChatMessages.label
         (ChatMessages.logInitiativeRoll JsUndefined false false (ofZ 18)
            alwaysSeven)
       = Some "bsh.messages.labels.criticalSuccess"%string
       ↔ flags_bsh_critInit entry = Some critSuccess)
    ∧ (ChatMessages.label
         (ChatMessages.logInitiativeRoll JsUndefined false false (ofZ 18)
            alwaysSeven)
       = Some "bsh.messages.labels.criticalFailure"%string
       ↔ flags_bsh_critInit entry = Some critFailure).
Proof.
  apply (X12_initiative_card_agrees_with_tracker
           (derivedAs sampleCalculated) uncachedCombat "hero"
           uncachedHero uncachedCharacter (statValue <$> sampleCalculated)
           (ofZ 18) [] {| pendingRolls := [7]; storeCalls := [] |} 7 []
           JsUndefined false false alwaysSeven).
  - reflexivity.
  - reflexivity.
  - reflexivity.
  - vm_compute. reflexivity.
  - left. reflexivity.
  - reflexivity.
  - lia.
  - discriminate.
  - reflexivity.
Defined.

Lemma first_digit_differs (a b : ascii) (s t : string) :
  a ≠ b → String a s ≠ String b t.
Proof. intros Hab [= ? _]. contradiction. Qed.

(** X13. The card of a plain die roll shows the formula chosen before the
    modifier keys are looked at, while the roll follows the keys: the
    formula shown is the formula rolled exactly when shift is not held and
    ctrl is not held by a character who is not doomed. *)
Theorem X13_logDieRoll_shows_unmodified doom dieType shiftKey ctrlKey rollEm :
  let card := ChatMessages.logDieRoll doom dieType shiftKey ctrlKey rollEm in
  ChatMessages.shown card
  = (if ChatMessages.isDoomed doom then "2" +:+ dieType +:+ "kl"
     else "1" +:+ dieType)
  ∧ (ChatMessages.shown card = ChatMessages.rolled card
     ↔ shiftKey = false
       ∧ (ctrlKey = false ∨ ChatMessages.isDoomed doom = true)).
Proof.
  unfold ChatMessages.logDieRoll. cbn [ChatMessages.shown ChatMessages.rolled].
  split; [reflexivity|].
  destruct (ChatMessages.isDoomed doom), shiftKey, ctrlKey; cbn [negb];
    (split; [intros H|intros [H1 H2]]); try (split; auto; fail);
    try reflexivity; try discriminate H1;
    try (destruct H2; discriminate);
    exfalso; revert H; by apply first_digit_differs.
Qed.

Lemma levelOrZero_bound level :
  - 2 ^ 52 ≤ ChatMessages.levelOrZero level ≤ 2 ^ 52.
Proof.
  destruct level as [[z Hz]|]; cbn; [|lia].
  apply Z.leb_le in Hz. lia.
Qed.

(** X14. For levels that are integers of at most 2^52 in absolute value:
    the threat bonus of an attack is the amount by which the level of the
    first target exceeds the level of the attacker, when a character
    attacks a target that is not a character, and 0 in every other case;
    it is never negative, and at most 2^53.  A positive bonus is written
    behind the dice as " + N", N in decimal digits.  The damage formula is
    on the card exactly when the attack succeeded. *)
Theorem X14_logAttackRoll_threat_and_damage
    actorType pcLevel targets doom strength dexterity damageDice weapon
    shiftKey ctrlKey rollEm :
  let bonus := ChatMessages.threatBonus actorType pcLevel targets in
  let card := ChatMessages.logAttackRoll actorType pcLevel targets doom
                strength dexterity damageDice weapon shiftKey ctrlKey rollEm in
  0 ≤ bonus ≤ 2 ^ 53
  ∧ (∀ target others,
       actorType = "character"%string →
       targets = Some target :: others →
       ChatMessages.targetType target ≠ "character"%string →
       bonus = Z.max 0 (ChatMessages.levelOrZero (ChatMessages.targetLevel target)
                        - ChatMessages.levelOrZero pcLevel))
  ∧ (actorType ≠ "character"%string → bonus = 0)
  ∧ (0 < bonus →
     ∃ dice, ChatMessages.rolled (ChatMessages.attack card)
             = dice +:+ " + " +:+ pretty bonus
             ∧ (dice = "1d20"%string ∨ dice = "2d20kl"%string
                ∨ dice = "2d20kh"%string))
  ∧ (is_Some (ChatMessages.damage card)
     ↔ ChatMessages.success (ChatMessages.attack card) = Some true).
Proof.
  intros bonus card. split; [|split; [|split; [|split]]].
  - subst bonus. unfold ChatMessages.threatBonus.
    destruct (String.eqb actorType "character"); [|lia].
    destruct (head targets) as [[target|]|]; try lia.
    destruct (negb _); [|lia].
    pose proof (levelOrZero_bound pcLevel).
    pose proof (levelOrZero_bound (ChatMessages.targetLevel target)).
    destruct (Z.ltb_spec (ChatMessages.levelOrZero pcLevel)
                (ChatMessages.levelOrZero (ChatMessages.targetLevel target)));
      lia.
  - intros target others -> -> Hty. subst bonus.
    unfold ChatMessages.threatBonus. cbn [head].
    apply String.eqb_neq in Hty. rewrite String.eqb_refl, Hty. cbn [negb].
    destruct (Z.ltb_spec (ChatMessages.levelOrZero pcLevel)
                (ChatMessages.levelOrZero (ChatMessages.targetLevel target)));
      lia.
  - intros Hty. subst bonus. unfold ChatMessages.threatBonus.
    apply String.eqb_neq in Hty. by rewrite Hty.
  - intros Hpos. subst card. unfold ChatMessages.logAttackRoll. cbv zeta.
    fold bonus. apply Z.ltb_lt in Hpos. rewrite Hpos.
    match goal with |- context [ChatMessages.attack
                                  (let '(_, _) := ?x in _)] =>
      destruct x end.
    cbn [ChatMessages.attack ChatMessages.rolled].
    destruct shiftKey, ctrlKey, (ChatMessages.isDoomed doom);
      eexists; (split; [reflexivity|]); vm_compute; auto.
  - subst card. unfold ChatMessages.logAttackRoll. cbv zeta.
    match goal with |- context [ChatMessages.attack
                                  (let '(_, _) := ?x in _)] =>
      destruct x end.
    cbn [ChatMessages.attack ChatMessages.damage ChatMessages.success].
    destruct (negb _ && _).
    + split; [done|]. intros _. eexists. reflexivity.
    + split; [intros [? ?]; discriminate|discriminate].
Qed.

Lemma X14_logAttackRoll_threat_and_damage_witness :
  ChatMessages.threatBonus "character" (Some secondLevel) [Some sampleCreature]
  = Z.max 0 (ChatMessages.levelOrZero (ChatMessages.targetLevel sampleCreature)
             - ChatMessages.levelOrZero (Some secondLevel)).
Proof.
  apply (proj1 (proj2 (X14_logAttackRoll_threat_and_damage
           "character" (Some secondLevel) [Some sampleCreature]
           JsUndefined (ofZ 12) (ofZ 9)
           {| Shared.armed := "d8"; Shared.unarmed := "d4" |}
           {| Shared.w_type := JsStr "melee"; Shared.hands := ofZ 1 |}
           false false alwaysSeven))
         sampleCreature []);
    [reflexivity|reflexivity|discriminate].
Defined.

(** * Properties of the attribute values *)

Lemma addTo_keeps k attribute n calculated :
  hasProperty k calculated → hasProperty k (Shared.addTo attribute n calculated).
Proof.
  destruct calculated as [c|]; [|done]. unfold Shared.addTo. simpl. intros Hk.
  destruct (c !! attribute) eqn:Ha;
    [destruct (Shared.plus _ _)|destruct (Shared.inherited attribute)];
    simpl; try done; rewrite lookup_insert; case_decide; eauto.
Qed.

Lemma improve_keeps k choice calculated :
  hasProperty k calculated → hasProperty k (Shared.improve choice calculated).
Proof.
  destruct calculated as [c|]; [|done]. unfold Shared.improve. simpl. intros Hk.
  destruct (c !! default "undefined"%string choice) eqn:Ha;
    [|by destruct (Shared.inherited _)].
  destruct (Shared.plus _ _); [|done].
  simpl. rewrite lookup_insert. case_decide; eauto.
Qed.

Lemma applyBackground_keeps k e calculated :
  hasProperty k calculated → hasProperty k (Shared.applyBackground e calculated).
Proof.
  intros Hk. destruct e as [[[attributes|]]|]; simpl; try done.
  apply (map_fold_weak_ind (λ r _, hasProperty k r)); [done|].
  intros. by apply addTo_keeps.
Qed.

Lemma applyStory_keeps k key story calculated :
  from_option (hasProperty k) True calculated →
  from_option (hasProperty k) True (Shared.applyStory key story calculated).
Proof.
  destruct calculated as [c|]; [|done]. simpl. intros Hk.
  destruct (Shared.improved story) as [i|]; [|done].
  destruct (Shared.granted i); [|done].
  destruct (Shared.i_first i) as [choice|]; [|done].
  destruct (Shared.i_second i); simpl; auto using improve_keeps.
Qed.

Lemma calculateAttributeValues_keeps data configuration calculated k :
  k ∈ attributeNames →
  Shared.calculateAttributeValues data configuration
  = Some (Shared.Known calculated) →
  is_Some (calculated !! k).
Proof.
  intros Hk. unfold Shared.calculateAttributeValues. cbv zeta.
  match goal with
  | |- context [fold_left _ _ (Shared.Known ?b)] => set (base := b)
  end.
  assert (Hbase : hasProperty k (Shared.Known base)).
  { unfold attributeNames in Hk. simpl. subst base.
    repeat (apply elem_of_cons in Hk as [->|Hk];
            [eexists; vm_compute; reflexivity|]).
    by apply elem_of_nil in Hk. }
  set (names := _ <$> [_; _; _]).
  assert (Hfold : ∀ es c, hasProperty k c →
            hasProperty k (fold_left (λ c e, Shared.applyBackground e c) es c)).
  { induction es as [|e es IH]; intros c Hc; [done|].
    simpl. apply IH. by apply applyBackground_keeps. }
  specialize (Hfold ((λ name, Shared.backgroundList configuration !! name)
                       <$> names) _ Hbase).
  revert Hfold. generalize (fold_left (λ c e, Shared.applyBackground e c)
                    ((λ name, Shared.backgroundList configuration !! name)
                       <$> names) (Shared.Known base)).
  intros c0 Hc0.
  assert (Hst : from_option (hasProperty k) True
                  (map_fold Shared.applyStory (Some c0) (Shared.d_stories data))).
  { apply (map_fold_weak_ind (λ r _, from_option (hasProperty k) True r));
      [done|]. intros. by apply applyStory_keeps. }
  destruct (map_fold Shared.applyStory (Some c0) (Shared.d_stories data))
    as [[c|]|]; try discriminate.
  intros [= <-]. simpl in Hst. rewrite lookup_fmap.
  destruct Hst as [x ->]. by eexists.
Qed.

Lemma calculateAttributeValues_capped data configuration calculated k z :
  Shared.calculateAttributeValues data configuration
  = Some (Shared.Known calculated) →
  calculated !! k = Some (Shared.Int z) → z ≤ 18.
Proof.
  unfold Shared.calculateAttributeValues. cbv zeta.
  destruct (map_fold Shared.applyStory _ _) as [[c|]|]; try discriminate.
  intros [= <-]. rewrite lookup_fmap.
  destruct (c !! k) as [[y| |]|]; simpl; try discriminate.
  destruct (Z.ltb_spec 18 y); intros [= <-]; lia.
Qed.

(** X15. Whatever the backgrounds and stories add, no attribute computed
    by [calculateAttributeValues] is above 18, and the six attributes are
    always properties of the result. *)
Theorem X15_calculateAttributeValues_capped data configuration calculated :
  Shared.calculateAttributeValues data configuration
  = Some (Shared.Known calculated) →
  (∀ k z, calculated !! k = Some (Shared.Int z) → z ≤ 18)
  ∧ (∀ k, k ∈ attributeNames → is_Some (calculated !! k)).
Proof.
  intros H. split.
  - intros k z. by apply calculateAttributeValues_capped with data configuration.
  - intros k Hk. by apply calculateAttributeValues_keeps with data configuration.
Qed.

Lemma X15_calculateAttributeValues_capped_witness :
  (∀ k z, sampleCalculated !! k = Some (Shared.Int z) → z ≤ 18)
  ∧ (∀ k, k ∈ attributeNames → is_Some (sampleCalculated !! k)).
Proof.
  apply (X15_calculateAttributeValues_capped sampleData sampleConfiguration).
  vm_compute. reflexivity.
Defined.

Lemma splitOn_append sep prefix name :
  ∃ first front, Shared.splitOn sep (prefix +:+ String sep name)
                 = (first :: front) ++ Shared.splitOn sep name.
Proof.
  induction prefix as [|a prefix (first & front & IH)].
  - exists EmptyString, []. simpl. by rewrite Ascii.eqb_refl.
  - change (String a prefix +:+ String sep name)
      with (String a (prefix +:+ String sep name)).
    cbn [Shared.splitOn]. rewrite IH.
    destruct (Ascii.eqb a sep).
    + by exists EmptyString, (first :: front).
    + by exists (String a first), front.
Qed.

Lemma last_app_nonempty {A} (l r : list A) d :
  r ≠ [] → List.last (l ++ r) d = List.last r d.
Proof.
  intros Hr. induction l as [|x l IH]; [reflexivity|].
  simpl. destruct (l ++ r) eqn:E; [|exact IH].
  apply app_eq_nil in E as [_ ->]. done.
Qed.

Lemma splitOn_single sep name :
  Shared.includes sep name = false → Shared.splitOn sep name = [name].
Proof.
  induction name as [|a name IH]; [reflexivity|]. simpl.
  intros H. apply orb_false_iff in H as [Ha Hn].
  by rewrite Ha, (IH Hn).
Qed.

Lemma includes_append sep prefix name :
  Shared.includes sep (prefix +:+ String sep name) = true.
Proof.
  induction prefix as [|a prefix IH].
  - simpl. by rewrite Ascii.eqb_refl.
  - change (String a prefix +:+ String sep name)
      with (String a (prefix +:+ String sep name)).
    cbn [Shared.includes]. rewrite IH. apply orb_true_r.
Qed.

(** X16. Only what follows the last '#' of a background name is looked up
    in the configuration: a name "prefix#name" gives the same attribute
    values as "name". *)
Theorem X16_background_name_after_hash prefix name :
  Shared.includes "#" name = false →
  Shared.backgroundName (prefix +:+ "#" +:+ name) = name
  ∧ Shared.backgroundName name = name
  ∧ ∀ a second third stories configuration,
      Shared.calculateAttributeValues
        {| Shared.d_attributes := a;
           Shared.d_backgrounds :=
             {| Shared.b_first := prefix +:+ "#" +:+ name;
                Shared.b_second := second; Shared.b_third := third |};
           Shared.d_stories := stories |} configuration
      = Shared.calculateAttributeValues
          {| Shared.d_attributes := a;
             Shared.d_backgrounds :=
               {| Shared.b_first := name;
                  Shared.b_second := second; Shared.b_third := third |};
             Shared.d_stories := stories |} configuration.
Proof.
  intros Hname.
  assert (H1 : Shared.backgroundName (prefix +:+ "#" +:+ name) = name).
  { unfold Shared.backgroundName.
    change (prefix +:+ "#" +:+ name) with (prefix +:+ String "#" name).
    rewrite includes_append.
    destruct (splitOn_append "#" prefix name) as (first & front & ->).
    rewrite last_app_nonempty by apply splitOn_nonempty.
    by rewrite (splitOn_single _ _ Hname). }
  assert (H2 : Shared.backgroundName name = name).
  { unfold Shared.backgroundName. by rewrite Hname. }
  split; [exact H1|]. split; [exact H2|].
  intros a second third stories configuration.
  unfold Shared.calculateAttributeValues. cbv zeta.
  cbn [Shared.d_backgrounds Shared.b_first Shared.b_second Shared.b_third
       fmap list_fmap].
  by rewrite H1, H2.
Qed.

Lemma X16_background_name_after_hash_witness :
  Shared.backgroundName ("origin" +:+ "#" +:+ "sage") = "sage"%string.
Proof.
  apply (proj1 (X16_background_name_after_hash "origin" "sage" eq_refl)).
Defined.

Lemma characterOutcome_slow wis total :
  18 ≤ total → (total ≠ 20 → lessThan (ofZ total) wis = false) →
  characterOutcome wis total
  = {| bucket := 1;
       critFlag := if total =? 20 then Some critFailure else None;
       raw := total; initiativeValue := 1 * 1000 - total |}.
Proof.
  intros Hhigh Hlt. unfold characterOutcome.
  destruct (Z.eqb_spec total 1) as [->|_]; [lia|].
  destruct (Z.eqb_spec total 20) as [->|H20]; [reflexivity|].
  by rewrite (Hlt H20).
Qed.

(** X17. The willpower derived for a character never lets a high die
    through: when the derivation used by the tracker returns the attributes
    that [calculateAttributeValues] computes and no cached value is used, a
    die of 18, 19 or 20 always puts the character in the slow bucket, with
    rank 1000 minus the die. *)
Theorem X17_derived_willpower_high_die
    (derive : System → option (gmap string JsValue))
    this cid c a data configuration derived updates w total rest :
  resolves this cid = Some (c, a) →
  a_type a = "character"%string →
  truthy (calculated (a_system a)) = false →
  Shared.calculateAttributeValues data configuration
  = Some (Shared.Known derived) →
  derive (a_system a) = Some (statValue <$> derived) →
  pendingRolls w = total :: rest →
  18 ≤ total →
  iteration derive this cid updates w
  = (inr (updates ++ [{| _id := c_id c; initiative := 1000 - total;
                         flags_bsh_critInit :=
                           if total =? 20 then Some critFailure else None |}]),
     {| pendingRolls := rest; storeCalls := storeCalls w |}).
Proof.
  intros Hres Hty Hcache Hcalc Hderive Hrolls Hhigh.
  rewrite (iteration_character derive _ _ _ _ _ _ Hres Hty).
  unfold characterWisdom. rewrite Hcache, Hderive. cbn [negb]. cbv iota.
  rewrite Hrolls. unfold dotWisdom. rewrite lookup_fmap.
  destruct (calculateAttributeValues_keeps data configuration derived
              "wisdom" ltac:(unfold attributeNames; set_solver) Hcalc)
    as [x Hx].
  rewrite Hx. cbn [fmap option_fmap option_map default from_option].
  rewrite characterOutcome_slow; [reflexivity|done|].
  intros _. destruct x as [z| |]; cbn [statValue id]; cbv beta iota.
  - rewrite lessThan_ofZ. apply Z.ltb_ge.
    pose proof (calculateAttributeValues_capped _ _ _ _ _ Hcalc Hx). lia.
  - reflexivity.
  - rewrite lessThan_ofZ. apply Z.ltb_ge. lia.
Qed.

Lemma X17_derived_willpower_high_die_witness :
  iteration (λ _, Some (statValue <$> sampleCalculated))
    uncachedCombat "hero" [] {| pendingRolls := [18]; storeCalls := [] |}
  = (inr ([] ++ [{| _id := "hero"; initiative := 1000 - 18;
                    flags_bsh_critInit :=
                      if 18 =? 20 then Some critFailure else None |}]),
     {| pendingRolls := []; storeCalls := [] |}).
Proof.
  apply (X17_derived_willpower_high_die
           (λ _, Some (statValue <$> sampleCalculated))
           uncachedCombat "hero" uncachedHero uncachedCharacter
           sampleData sampleConfiguration sampleCalculated []
           {| pendingRolls := [18]; storeCalls := [] |} 18 []);
    first [reflexivity | lia].
Defined.

Lemma improve_known choice m :
  Shared.improve choice (Shared.Known m)
  = match m !! default "undefined"%string choice with
    | Some x =>
        match Shared.plus x 1 with
        | Shared.Known total =>
            Shared.Known (<[default "undefined"%string choice := total]> m)
        | Shared.Unmodelled => Shared.Unmodelled
        end
    | None =>
        if Shared.inherited (default "undefined"%string choice)
        then Shared.Unmodelled else Shared.Known m
    end.
Proof. reflexivity. Qed.

Lemma improve_comm a b calculated :
  Shared.improve a (Shared.improve b calculated)
  = Shared.improve b (Shared.improve a calculated).
Proof.
  destruct calculated as [m|]; [|reflexivity].
  rewrite (improve_known a m), (improve_known b m).
  destruct (decide (default "undefined"%string a = default "undefined"%string b))
    as [E|Hne].
  { rewrite E. destruct (m !! default "undefined"%string b) as [y|] eqn:Hb.
    - destruct (Shared.plus y 1) as [y'|]; [|reflexivity].
      rewrite !improve_known, E. reflexivity.
    - destruct (Shared.inherited _); [reflexivity|].
      rewrite !improve_known, E. reflexivity. }
  destruct (m !! default "undefined"%string a) as [x|] eqn:Ha,
           (m !! default "undefined"%string b) as [y|] eqn:Hb;
    try destruct (Shared.plus x 1) as [x'|] eqn:Hx;
    try destruct (Shared.plus y 1) as [y'|] eqn:Hy;
    try destruct (Shared.inherited (default "undefined"%string a)) eqn:Hia;
    try destruct (Shared.inherited (default "undefined"%string b)) eqn:Hib;
    rewrite ?improve_known;
    repeat (rewrite lookup_insert_ne by done);
    rewrite ?Ha, ?Hb, ?Hx, ?Hy, ?Hia, ?Hib; try reflexivity;
    by rewrite insert_insert_ne.
Qed.

Lemma applyStory_choices key story calculated :
  Shared.applyStory key story calculated
  = match calculated, storyChoices story with
    | Some c, Some choices =>
        Some (fold_left (λ c choice, Shared.improve choice c) choices c)
    | _, _ => None
    end.
Proof.
  unfold Shared.applyStory, storyChoices.
  destruct calculated as [c|]; [|reflexivity].
  destruct (Shared.improved story) as [i|]; [|reflexivity].
  destruct (Shared.granted i); [|reflexivity].
  destruct (Shared.i_first i); [|reflexivity].
  by destruct (Shared.i_second i).
Qed.

Lemma improve_fold_comm a choices c :
  Shared.improve a (fold_left (λ c choice, Shared.improve choice c) choices c)
  = fold_left (λ c choice, Shared.improve choice c) choices (Shared.improve a c).
Proof.
  revert c. induction choices as [|b choices IH]; intros c; [reflexivity|].
  simpl. by rewrite IH, improve_comm.
Qed.

Lemma applyStory_comm j1 j2 s1 s2 y :
  Shared.applyStory j1 s1 (Shared.applyStory j2 s2 y)
  = Shared.applyStory j2 s2 (Shared.applyStory j1 s1 y).
Proof.
  rewrite !applyStory_choices.
  destruct y as [c|]; [|by destruct (storyChoices s1), (storyChoices s2)].
  destruct (storyChoices s1) as [l1|], (storyChoices s2) as [l2|];
    try reflexivity.
  f_equal. revert c. induction l1 as [|a l1 IH]; intros c; [reflexivity|].
  simpl. rewrite <- IH. by rewrite improve_fold_comm.
Qed.

(** X18. A story with a granted improvement of one attribute of the sheet
    raises that attribute by one and leaves every other computed attribute
    as it is, for an attribute that is an integer below 18 and not below
    -2^53, where the sum is exact; an attribute that is undefined or NaN
    becomes NaN.  An attribute that stands at 18 stays at 18, as far as the
    sum behind it is exact. *)
Theorem X18_improvement_raises_by_one
    data configuration stories key attribute derived x :
  stories !! key = None →
  Shared.calculateAttributeValues (withDataStories data stories) configuration
  = Some (Shared.Known derived) →
  derived !! attribute = Some x →
  let improved :=
    Shared.calculateAttributeValues
      (withDataStories data
         (<[key := {| Shared.improved :=
                        Some {| Shared.granted := true;
                                Shared.i_first := Some (Some attribute);
                                Shared.i_second := None |} |}]> stories))
      configuration in
  ((∀ z, x = Shared.Int z → - 2 ^ 53 ≤ z < 18) →
   improved = Some (Shared.Known (<[attribute := raised x]> derived))
   ∧ (∀ z, x = Shared.Int z → raised x = Shared.Int (z + 1)))
  ∧ (x = Shared.Int 18 →
     ∀ derived', improved = Some (Shared.Known derived') → derived' = derived).
Proof.
  intros Hkey Hderived Hx improved. subst improved. revert Hderived Hx.
  unfold Shared.calculateAttributeValues. cbv zeta.
  cbn [withDataStories Shared.d_stories Shared.d_attributes
       Shared.d_backgrounds].
  rewrite map_fold_insert_L by (auto using applyStory_comm).
  rewrite applyStory_choices.
  destruct (map_fold Shared.applyStory _ stories) as [[c|]|]; try discriminate.
  intros [= <-] Hx. rewrite lookup_fmap in Hx.
  destruct (c !! attribute) as [y|] eqn:Hy; [|discriminate].
  injection Hx as <-.
  cbn [storyChoices Shared.improved Shared.granted Shared.i_first
       Shared.i_second fold_left].
  rewrite improve_known. cbn [default from_option id]. rewrite Hy.
  split.
  - intros Hrange.
    assert (Hplus : ∃ total, Shared.plus y 1 = Shared.Known total
                             ∧ Shared.cap total = raised (Shared.cap y)
                             ∧ ∀ z, Shared.cap y = Shared.Int z →
                                    raised (Shared.cap y) = Shared.Int (z + 1)).
    { destruct y as [z| |]; [|by eexists..].
      assert (- 2 ^ 53 ≤ z < 18) as Hz.
      { cbn [Shared.cap] in Hrange.
        destruct (Z.ltb_spec 18 z); specialize (Hrange _ eq_refl); lia. }
      exists (Shared.Int (z + 1)). cbn [Shared.plus].
      rewrite exactSum_known by (rewrite ?exact_spec; lia).
      split; [reflexivity|]. cbn [Shared.cap raised].
      destruct (Z.ltb_spec 18 z); [lia|]. cbn [raised].
      destruct (Z.ltb_spec 18 (z + 1)); [lia|].
      split; [f_equal; lia|]. intros z' [= <-]. f_equal. lia. }
    destruct Hplus as (total & -> & Hcap & Hraised).
    split; [|exact Hraised]. by rewrite fmap_insert, Hcap.
  - intros H18 derived'.
    destruct y as [z| |]; [|cbn in H18; discriminate..]. cbn [Shared.plus].
    destruct (Shared.exactSum z 1) as [total|] eqn:Hsum; [|discriminate].
    apply exactSum_inv in Hsum as ->. intros [= <-].
    assert (Hz : 18 ≤ z).
    { cbn [Shared.cap] in H18. destruct (Z.ltb_spec 18 z); [lia|].
      injection H18 as ->. lia. }
    rewrite fmap_insert. apply insert_id. rewrite lookup_fmap, Hy.
    cbn [fmap option_fmap option_map]. rewrite H18. f_equal.
    cbn [Shared.cap]. destruct (Z.ltb_spec 18 (z + 1)); [reflexivity|lia].
Qed.

Lemma X18_improvement_raises_by_one_witness :
  Shared.calculateAttributeValues
    (withDataStories sampleData
       (<["2" := {| Shared.improved :=
                      Some {| Shared.granted := true;
                              Shared.i_first := Some (Some "strength"%string);
                              Shared.i_second := None |} |}]>
          (Shared.d_stories sampleData)))
    sampleConfiguration
  = Some (Shared.Known (<["strength" := raised (Shared.Int 11)]> sampleCalculated))
  ∧ (∀ z, Shared.Int 11 = Shared.Int z → raised (Shared.Int 11) = Shared.Int (z + 1)).
Proof.
  apply (proj1 (X18_improvement_raises_by_one sampleData sampleConfiguration
                  (Shared.d_stories sampleData) "2" "strength" sampleCalculated
                  (Shared.Int 11) eq_refl eq_refl eq_refl)).
  intros z [= <-]. lia.
Defined.

(** * Properties of the usage die of an item *)

Lemma downgradeDie_readBack die :
  readBack (Shared.downgradeDie die) = Shared.downgradeDie die.
Proof.
  unfold Shared.downgradeDie.
  repeat match goal with
         | |- context [if ?b then _ else _] => destruct b
         end; reflexivity.
Qed.

Lemma downgradeDie_exhausted die :
  Shared.strictEqualsString (Shared.downgradeDie (JsStr die)) "exhausted"
  = String.eqb die "d4".
Proof.
  unfold Shared.downgradeDie, Shared.strictEqualsString.
  string_cases die; reflexivity.
Qed.

(** X19. A roll of the current usage die of an item: the die is rolled
    once, or twice keeping the highest with shift, or twice keeping the
    lowest with ctrl.  A total of 3 or more requests no update.  A total
    below 3 requests an update whose data hold the downgraded die at the
    very path the current die was read from, and the quantity of the item is
    decremented exactly when the die was a d4. *)
Theorem X19_usage_die_roll system field (shiftKey ctrlKey : bool)
    (rollEm : string → ChatMessages.Rolled) (die : string) :
  Shared.getObjectField (field +:+ ".current") system
  = Shared.Known (JsStr die) →
  die ≠ ""%string → die ≠ "^"%string → die ≠ "exhausted"%string →
  Forall (λ step, Shared.inherited step = false)
         (Shared.splitOn "." (field +:+ ".current")) →
  let formula := if shiftKey then "2" +:+ die +:+ "kh"
                 else if ctrlKey then "2" +:+ die +:+ "kl"
                 else "1" +:+ die in
  let roll := rollEm formula in
  ∃ card update decrement,
    ChatMessages.logItemUsageDieRoll system field shiftKey ctrlKey rollEm
    = Shared.Known (ChatMessages.UsageRolled card update decrement)
    ∧ ChatMessages.rolled card = formula
    ∧ (3 ≤ ChatMessages.total roll →
       update = None ∧ decrement = false
       ∧ ChatMessages.success card = Some true)
    ∧ (ChatMessages.total roll < 3 →
       decrement = String.eqb die "d4"
       ∧ ChatMessages.success card = Some false
       ∧ ∃ data, update = Some data
                 ∧ Shared.getObjectField (field +:+ ".current") data
                   = Shared.Known (Shared.downgradeDie (JsStr die))).
Proof.
  intros Hcurrent Hne Hcaret Hexh Hplain formula roll.
  unfold ChatMessages.logItemUsageDieRoll. rewrite Hcurrent.
  apply String.eqb_neq in Hne, Hcaret, Hexh.
  cbn [truthy Shared.strictEqualsString]. rewrite Hne, Hcaret.
  cbn [negb orb]. cbv iota.
  cbn [truthy Shared.strictEqualsString]. rewrite Hne, Hexh.
  cbn [negb]. cbv iota. fold formula. fold roll.
  destruct (Z.ltb_spec (ChatMessages.total roll) 3) as [Hlow|Hhigh].
  - destruct (setObjectField_fresh (field +:+ ".current")
                (Shared.downgradeDie (JsStr die)) JsNull eq_refl Hplain)
      as [data Hdata].
    rewrite Hdata. do 3 eexists. split; [reflexivity|].
    split; [reflexivity|]. split; [lia|]. intros _.
    split; [apply downgradeDie_exhausted|]. split; [reflexivity|].
    exists data. split; [reflexivity|].
    rewrite (getObjectField_setObjectField _ _ _ _ Hdata).
    by rewrite downgradeDie_readBack.
  - do 3 eexists. split; [reflexivity|]. split; [reflexivity|].
    split; [done|lia].
Qed.

Lemma X19_usage_die_roll_witness :
  ∃ card update decrement,
    ChatMessages.logItemUsageDieRoll torchSystem "usageDie" false false
      alwaysTwo
    = Shared.Known (ChatMessages.UsageRolled card update decrement)
    ∧ ChatMessages.rolled card = "1d4"%string
    ∧ (3 ≤ 2 → update = None ∧ decrement = false
               ∧ ChatMessages.success card = Some true)
    ∧ (2 < 3 →
       decrement = true
       ∧ ChatMessages.success card = Some false
       ∧ ∃ data, update = Some data
                 ∧ Shared.getObjectField "usageDie.current" data
                   = Shared.Known (JsStr "exhausted")).
Proof.
  apply (X19_usage_die_roll torchSystem "usageDie" false false alwaysTwo "d4");
    try done.
  vm_compute. repeat constructor.
Defined.

(** X20. The die of a usage roll is the maximum whenever the current die is
    missing, falsy or "^"; a die that is then missing or falsy is reported
    as not found, and an exhausted die is reported as exhausted: in both
    cases nothing is rolled and no update is requested. *)
Theorem X20_usage_die_fallback system field shiftKey ctrlKey rollEm
    current maximum :
  Shared.getObjectField (field +:+ ".current") system = Shared.Known current →
  Shared.getObjectField (field +:+ ".maximum") system = Shared.Known maximum →
  (current = JsStr "exhausted" →
   ChatMessages.logItemUsageDieRoll system field shiftKey ctrlKey rollEm
   = Shared.Known ChatMessages.UsageExhausted)
  ∧ (truthy current = false ∨ current = JsStr "^" →
     (truthy maximum = false →
      ChatMessages.logItemUsageDieRoll system field shiftKey ctrlKey rollEm
      = Shared.Known ChatMessages.UsageNotFound)
     ∧ (maximum = JsStr "exhausted" →
        ChatMessages.logItemUsageDieRoll system field shiftKey ctrlKey rollEm
        = Shared.Known ChatMessages.UsageExhausted)
     ∧ (∀ die, maximum = JsStr die → die ≠ ""%string →
               die ≠ "exhausted"%string →
               3 ≤ ChatMessages.total
                     (rollEm (if shiftKey then "2" +:+ die +:+ "kh"
                              else if ctrlKey then "2" +:+ die +:+ "kl"
                              else "1" +:+ die)) →
               ∃ card,
                 ChatMessages.logItemUsageDieRoll system field shiftKey
                   ctrlKey rollEm
                 = Shared.Known (ChatMessages.UsageRolled card None false)
                 ∧ ChatMessages.rolled card
                   = (if shiftKey then "2" +:+ die +:+ "kh"
                      else if ctrlKey then "2" +:+ die +:+ "kl"
                      else "1" +:+ die))).
Proof.
  intros Hcurrent Hmaximum. unfold ChatMessages.logItemUsageDieRoll.
  rewrite Hcurrent. split.
  - intros ->. reflexivity.
  - intros Hfall.
    assert (Hif : negb (truthy current)
                  || Shared.strictEqualsString current "^" = true).
    { destruct Hfall as [-> | ->]; [reflexivity|]. apply orb_true_r. }
    rewrite Hif, Hmaximum. split; [|split].
    + intros ->. reflexivity.
    + intros ->. reflexivity.
    + intros die -> Hne Hexh Hhigh.
      apply String.eqb_neq in Hne, Hexh.
      cbn [truthy Shared.strictEqualsString]. rewrite Hne, Hexh.
      cbn [negb]. cbv iota.
      apply Z.ltb_ge in Hhigh. rewrite Hhigh. eauto.
Qed.

Lemma X20_usage_die_fallback_witness :
  ChatMessages.logItemUsageDieRoll spentSystem "usageDie" false false alwaysTwo
  = Shared.Known ChatMessages.UsageExhausted.
Proof.
  apply (proj1 (proj2 (proj2 (X20_usage_die_fallback
           spentSystem "usageDie" false false alwaysTwo
           (JsStr "^") (JsStr "exhausted") eq_refl eq_refl)
           (or_intror eq_refl))) eq_refl).
Defined.

(** * Properties of the owned items *)

Lemma searchActors_spec itemId actors item0 :
  match Shared.searchActors itemId actors item0 with
  | Some item =>
      (∃ actor, actor ∈ actors ∧ item ∈ Shared.items actor
                ∧ Shared.i_id item = itemId)
      ∨ (item0 = Some item
         ∧ ∀ actor i, actor ∈ actors → i ∈ Shared.items actor →
                      Shared.i_id i ≠ itemId)
  | None =>
      ∀ actor i, actor ∈ actors → i ∈ Shared.items actor →
                 Shared.i_id i ≠ itemId
  end.
Proof.
  revert item0. induction actors as [|actor rest IH]; intros item0.
  - simpl. destruct item0; [right; split; [done|]|]; intros ? ? H;
      by apply elem_of_nil in H.
  - simpl.
    destruct (find _ (Shared.items actor)) as [item|] eqn:Hfind.
    + left. apply find_some in Hfind as [Hin Heq].
      exists actor. split; [set_solver|].
      split; [by apply list_elem_of_In|by apply String.eqb_eq].
    + assert (Hnone : ∀ i, i ∈ Shared.items actor → Shared.i_id i ≠ itemId).
      { intros i Hi. apply list_elem_of_In in Hi.
        apply String.eqb_neq. by apply (find_none _ _ Hfind). }
      specialize (IH None).
      destruct (Shared.searchActors itemId rest None) as [item|].
      * destruct IH as [(a & Ha & Hi & Hid)|[? _]]; [|done].
        left. exists a. split; [set_solver|done].
      * intros a i Ha Hi. apply elem_of_cons in Ha as [->|Ha]; eauto.
Qed.

(** X21. [decrementItemQuantity] asks for an update only of an item that
    some actor owns under the given id and whose quantity is positive; the
    data of the update hold the quantity less one at "system.quantity",
    which is never negative.  A quantity of zero or less is reported as
    unavailable and an id that no actor owns as not found, both without
    update; and [incrementItemQuantity] asks for the quantity plus one.
    This holds for quantities that are integers strictly between -2^53 and
    2^53, where the quantity less one and plus one are exact. *)
Theorem X21_item_quantity_requests actors itemId :
  (∀ actor item, actor ∈ actors → item ∈ Shared.items actor →
                 - 2 ^ 53 < Shared.quantity item < 2 ^ 53) →
  match Shared.decrementItemQuantity actors itemId with
  | Shared.Known (Shared.Requested item data) =>
      (∃ actor, actor ∈ actors ∧ item ∈ Shared.items actor)
      ∧ Shared.i_id item = itemId
      ∧ 0 ≤ Shared.quantity item - 1
      ∧ Shared.getObjectField "system.quantity" data
        = Shared.Known (JsNum (ofZ (Shared.quantity item - 1)))
  | Shared.Known Shared.Unavailable =>
      ∃ actor item, actor ∈ actors ∧ item ∈ Shared.items actor
                    ∧ Shared.i_id item = itemId ∧ Shared.quantity item ≤ 0
  | Shared.Known Shared.NotFound =>
      ∀ actor i, actor ∈ actors → i ∈ Shared.items actor →
                 Shared.i_id i ≠ itemId
  | Shared.Unmodelled => False
  end
  ∧ match Shared.incrementItemQuantity actors itemId with
    | Shared.Known (Shared.Requested item data) =>
        Shared.i_id item = itemId
        ∧ Shared.getObjectField "system.quantity" data
          = Shared.Known (JsNum (ofZ (Shared.quantity item + 1)))
    | Shared.Known Shared.Unavailable => False
    | Shared.Known Shared.NotFound =>
        ∀ actor i, actor ∈ actors → i ∈ Shared.items actor →
                   Shared.i_id i ≠ itemId
    | Shared.Unmodelled => False
    end.
Proof.
  intros Hrange.
  unfold Shared.decrementItemQuantity, Shared.incrementItemQuantity,
    Shared.getOwnedItemById.
  pose proof (searchActors_spec itemId actors None) as Hspec.
  destruct (Shared.searchActors itemId actors None) as [item|]; [|done].
  destruct Hspec as [(actor & Ha & Hi & Hid)|[? _]]; [|done].
  specialize (Hrange actor item Ha Hi).
  rewrite exactDifference_known, exactSum_known
    by (rewrite ?exact_spec; lia).
  split.
  - destruct (Z.ltb_spec 0 (Shared.quantity item)) as [Hpos|Hzero].
    + destruct (setObjectField_fresh "system.quantity"
                  (JsNum (ofZ (Shared.quantity item - 1))) JsNull eq_refl)
        as [data Hdata]; [vm_compute; repeat constructor|].
      rewrite Hdata. split; [eauto|]. split; [done|]. split; [lia|].
      by rewrite (getObjectField_setObjectField _ _ _ _ Hdata).
    + exists actor, item. auto.
  - destruct (setObjectField_fresh "system.quantity"
                (JsNum (ofZ (Shared.quantity item + 1))) JsNull eq_refl)
      as [data Hdata]; [vm_compute; repeat constructor|].
    rewrite Hdata. split; [done|].
    by rewrite (getObjectField_setObjectField _ _ _ _ Hdata).
Qed.

Lemma X21_item_quantity_requests_witness :
  ∃ data,
    Shared.decrementItemQuantity [sampleOwner] "torch"
    = Shared.Known (Shared.Requested sampleTorch data)
    ∧ Shared.getObjectField "system.quantity" data
      = Shared.Known (JsNum (ofZ (3 - 1))).
Proof.
  assert (Hrange : ∀ actor item,
            actor ∈ [sampleOwner] → item ∈ Shared.items actor →
            - 2 ^ 53 < Shared.quantity item < 2 ^ 53).
  { intros actor item Ha Hi. apply list_elem_of_singleton in Ha as ->.
    apply list_elem_of_singleton in Hi as ->. cbn. lia. }
  pose proof (proj1 (X21_item_quantity_requests [sampleOwner] "torch" Hrange))
    as H.
  destruct (Shared.decrementItemQuantity [sampleOwner] "torch")
    as [[item data| |]|] eqn:E; vm_compute in E; try discriminate.
  injection E as <- <-. eexists. split; [reflexivity|].
  exact (proj2 (proj2 (proj2 H))).
Defined.
